(** * Workspace provisioning core: embedding and verified properties

    This development embeds, function by function, the Go sources of the
    workspace tooling:

    - [pkg/cmd/workspace/create/creation_data.go]
      ([GetSuggestedName], [GetCreateWorkspaceDtoFromFlags]);
    - [pkg/db/connection.go] ([GetSQLiteConnection]);
    - the Docker provisioning file of package [docker] ([CreateWorkspace],
      [cloneWorkspaceRepository], [updateContainerUserUidGid] and the shell
      script [UPDATE_UID_GID_SCRIPT]);
    - the workspace service, of which only the test file
      [pkg/server/workspaces/service_test.go] is at hand.

    Go values are modelled as follows.  A Go [string] is a [string]; a Go
    [int] is a [Z] wrapped to 64 bits; a pointer that may be [nil] is an
    [option]; a Go [map] is a [gmap]; an [error] is the message it
    carries; a function with effects takes the state it acts on and
    returns the new one. *)

From Stdlib Require Import ZArith List String Ascii DecimalString DecimalZ Lia.
From stdpp Require Import base option list gmap strings.

Open Scope string_scope.

(** Go's [error] interface, identified with the message of the error. *)
Definition error := string.

(** A call either returns or panics (nil dereference, explicit [panic]). *)
Inductive outcome (A : Type) : Type :=
| Returned (a : A)
| Panicked (msg : string).
Arguments Returned {A} a.
Arguments Panicked {A} msg.

Definition obind {A B} (m : outcome A) (k : A -> outcome B) : outcome B :=
  match m with
  | Returned a => k a
  | Panicked msg => Panicked msg
  end.

Notation "'let!' x ':=' m 'in' k" := (obind m (fun x => k))
  (at level 10, x name, m at level 200, k at level 200, only parsing).

(** Dereference of a pointer [p]: a run-time panic when [p] is [nil]. *)
Definition deref {A} (p : option A) : outcome A :=
  match p with
  | Some a => Returned a
  | None => Panicked "invalid memory address or nil pointer dereference"
  end.

(** ** creation_data.go *)
Module creation_data.

(** Go's [int] on the 64-bit platforms the tool is built for. *)
Definition int_min : Z := - 2 ^ 63.
Definition int_max : Z := 2 ^ 63 - 1.
Definition int_wrap (z : Z) : Z := (z + 2 ^ 63) mod 2 ^ 64 - 2 ^ 63.

(** [fmt.Sprintf("%d", i)]: decimal digits, a leading [-] when negative. *)
Definition fmt_d (i : Z) : string := NilEmpty.string_of_int (Z.to_int i).

(** [slices.Contains(s, v)]: a left-to-right scan comparing with [==]. *)
Fixpoint slices_Contains (s : list string) (v : string) : bool :=
  match s with
  | [] => false
  | x :: rest => if String.eqb v x then true else slices_Contains rest v
  end.

(** The [for { ... i++ }] loop of [GetSuggestedName], started at [i].
    The loop has no bound in the source; [fuel] counts the iterations the
    model may run, and [None] means the fuel ran out. *)
Fixpoint suggestion_loop (fuel : nat) (suggestion : string)
    (existingNames : list string) (i : Z) : option string :=
  match fuel with
  | O => None
  | S fuel' =>
      let newSuggestion := suggestion +:+ fmt_d i in
      if negb (slices_Contains existingNames newSuggestion)
      then Some newSuggestion
      else suggestion_loop fuel' suggestion existingNames (int_wrap (i + 1))
  end.

Definition GetSuggestedName (fuel : nat) (initialSuggestion : string)
    (existingNames : list string) : option string :=
  let suggestion := initialSuggestion in
  if negb (slices_Contains existingNames suggestion)
  then Some suggestion
  else suggestion_loop fuel suggestion existingNames 2.

(** [apiclient.DevcontainerConfig] and [apiclient.BuildConfig], with the
    fields this file sets. *)
Record DevcontainerConfig := { FilePath : string }.
Record BuildConfig := { Devcontainer : option DevcontainerConfig }.

(** [apiclient.CreateWorkspaceDTO], with the fields
    [GetCreateWorkspaceDtoFromFlags] sets. *)
Record CreateWorkspaceDTO := {
  GitProviderConfigId : option string;
  BuildConfig_ : option BuildConfig;
  Image : option string;
  User : option string;
  EnvVars : gmap string string;
  Labels : gmap string string
}.

(** [cmd_common.WorkspaceConfigurationFlags]: every flag is a pointer. *)
Record WorkspaceConfigurationFlags := {
  Builder : option string;
  CustomImage : option string;
  CustomImageUser : option string;
  DevcontainerPath : option string;
  FlagEnvVars : option (list string);
  FlagLabels : option (list string);
  GitProviderConfig : option string
}.

(** Assignments to the fields of the DTO. *)
Definition set_BuildConfig (w : CreateWorkspaceDTO) (b : option BuildConfig) :=
  {| GitProviderConfigId := GitProviderConfigId w; BuildConfig_ := b;
     Image := Image w; User := User w;
     EnvVars := EnvVars w; Labels := Labels w |}.
Definition set_Image (w : CreateWorkspaceDTO) (i : option string) :=
  {| GitProviderConfigId := GitProviderConfigId w;
     BuildConfig_ := BuildConfig_ w; Image := i; User := User w;
     EnvVars := EnvVars w; Labels := Labels w |}.
Definition set_User (w : CreateWorkspaceDTO) (u : option string) :=
  {| GitProviderConfigId := GitProviderConfigId w;
     BuildConfig_ := BuildConfig_ w; Image := Image w; User := u;
     EnvVars := EnvVars w; Labels := Labels w |}.
Definition set_EnvVars (w : CreateWorkspaceDTO) (e : gmap string string) :=
  {| GitProviderConfigId := GitProviderConfigId w;
     BuildConfig_ := BuildConfig_ w; Image := Image w; User := User w;
     EnvVars := e; Labels := Labels w |}.
Definition set_Labels (w : CreateWorkspaceDTO) (l : gmap string string) :=
  {| GitProviderConfigId := GitProviderConfigId w;
     BuildConfig_ := BuildConfig_ w; Image := Image w; User := User w;
     EnvVars := EnvVars w; Labels := l |}.
(** [workspace.BuildConfig.Devcontainer = d]: a nil dereference is not
    possible where the source does it, [BuildConfig] being set just
    before; the model leaves a nil [BuildConfig] as it is. *)
Definition set_Devcontainer (w : CreateWorkspaceDTO)
    (d : option DevcontainerConfig) :=
  match BuildConfig_ w with
  | Some _ => set_BuildConfig w (Some {| Devcontainer := d |})
  | None => w
  end.

Section Flags.
(** Declared outside this file: the builder choices
    [views_util.DEVCONTAINER] and [views_util.NONE], the default path
    [create.DEVCONTAINER_FILEPATH] and the parser
    [cmd_common.MapKeyValue]. *)
Variables DEVCONTAINER NONE DEVCONTAINER_FILEPATH : string.
Variable MapKeyValue : list string -> gmap string string * option error.

(** The pair of a DTO pointer and an error is [inl dto] or [inr err].  The
    struct behind the pointer [workspace] is rebuilt at each
    assignment to one of its fields. *)
Definition GetCreateWorkspaceDtoFromFlags
    (flags : WorkspaceConfigurationFlags)
    : outcome (CreateWorkspaceDTO + error) :=
  let workspace := {|
    GitProviderConfigId := GitProviderConfig flags;
    BuildConfig_ := Some {| Devcontainer := None |};
    Image := None; User := None; EnvVars := ∅; Labels := ∅ |} in
  (* Builder is DEVCONTAINER, or DevcontainerPath is not empty *)
  let! builder := deref (Builder flags) in
  let! useDevcontainer :=
    (if String.eqb builder DEVCONTAINER then Returned true
     else (let! path := deref (DevcontainerPath flags) in
           Returned (negb (String.eqb path EmptyString)))) in
  let! workspace :=
    (if useDevcontainer : bool then
       (let! path := deref (DevcontainerPath flags) in
        let devcontainerFilePath :=
          if negb (String.eqb path EmptyString) then path
          else DEVCONTAINER_FILEPATH in
        Returned (set_Devcontainer workspace
                    (Some {| FilePath := devcontainerFilePath |})))
     else Returned workspace) in
  (* CustomImage or CustomImageUser is not empty *)
  let customImageSet :=
    (let! image := deref (CustomImage flags) in
     if negb (String.eqb image EmptyString) then Returned true
     else (let! user := deref (CustomImageUser flags) in
           Returned (negb (String.eqb user EmptyString)))) in
  (* Builder is NONE, or one of the two is not empty *)
  let! override :=
    (if String.eqb builder NONE then Returned true else customImageSet) in
  let! workspace :=
    (if override : bool then
       let workspace := set_BuildConfig workspace None in
       (let! custom := customImageSet in
        if custom : bool then
          Returned (set_User (set_Image workspace (CustomImage flags))
                      (CustomImageUser flags))
        else Returned workspace)
     else Returned workspace) in
  let envVars_err :=
    match FlagEnvVars flags with
    | Some l => MapKeyValue l
    | None => (∅, None)
    end in
  match envVars_err.2 with
  | Some err => Returned (inr err)
  | None =>
      let labels_err :=
        match FlagLabels flags with
        | Some l => MapKeyValue l
        | None => (∅, None)
        end in
      match labels_err.2 with
      | Some err => Returned (inr err)
      | None =>
          Returned (inl (set_Labels (set_EnvVars workspace envVars_err.1)
                           labels_err.1))
      end
  end.
End Flags.

End creation_data.

(** ** connection.go *)
Module db.

(** The object behind a [*gorm.DB]: the data source it was opened on and
    the limit set on the connection pool of its [sql.DB] (0: no limit). *)
Record gormDB := { dsn : string; MaxOpenConns : Z }.

(** The state of the process: the package variable [_db] (a pointer is
    the index of its object in [heap], [nil] is [None]), the objects
    allocated by [gorm.Open], and the messages passed to [log.Debug]. *)
Record Process := {
  _db : option nat;
  heap : list gormDB;
  debug_log : list string
}.

(** The two library calls that can fail, by data source. *)
Record Driver := {
  gorm_Open_fails : string -> bool;
  DB_fails : string -> bool
}.

Definition SetMaxOpenConns (h : nat) (n : Z) (heap : list gormDB)
    : list gormDB :=
  match heap !! h with
  | Some o => <[h := {| dsn := dsn o; MaxOpenConns := n |}]> heap
  | None => heap
  end.

(** The logger built for gorm only configures the new handle and is left
    out. *)
Definition GetSQLiteConnection (drv : Driver) (dbPath : string)
    (p : Process) : outcome nat * Process :=
  match _db p with
  | Some h => (Returned h, p)
  | None =>
      let p := {| _db := _db p; heap := heap p;
                  debug_log := debug_log p ++ ["Opening db at " +:+ dbPath] |} in
      if gorm_Open_fails drv dbPath
      then (Panicked "failed to connect database", p)
      else
        let db := length (heap p) in
        let p := {| _db := _db p;
                    heap := heap p ++ [{| dsn := dbPath; MaxOpenConns := 0 |}];
                    debug_log := debug_log p |} in
        if DB_fails drv dbPath
        then (Panicked "failed to connect database", p)
        else
          let p := {| _db := _db p;
                      heap := SetMaxOpenConns db 1 (heap p);
                      debug_log := debug_log p |} in
          let p := {| _db := Some db; heap := heap p;
                      debug_log := debug_log p |} in
          (Returned db, p)
  end.

(** A run of calls, one per path of the list, in order; the handles
    returned, until a call panics. *)
Fixpoint calls (drv : Driver) (paths : list string) (p : Process)
    : list nat * Process :=
  match paths with
  | [] => ([], p)
  | dbPath :: rest =>
      match GetSQLiteConnection drv dbPath p with
      | (Returned h, p') =>
          let '(hs, p'') := calls drv rest p' in (h :: hs, p'')
      | (Panicked _, p') => ([], p')
      end
  end.

End db.

(** ** The Docker provisioning file of package [docker] *)
Module docker.

(** *** The user database of a container

    A line of [/etc/passwd] or [/etc/group], split at its colons.  The
    [sed] expressions of the script address the fields of a line by
    position; they are read here on the split line, a match of
    [${REMOTE_USER}:], [:${NEW_UID}:] and the like being the equality of
    the name, user id or group id field with the variable.  That is
    what the expressions, which are not anchored, select on databases
    whose fields hold no colon, blank or shell metacharacter, where no
    other field ends with the name looked up and no later field of a
    line is the id looked up. *)
Record passwd_entry := {
  pw_name : string; pw_passwd : string; pw_uid : string; pw_gid : string;
  pw_gecos : string; pw_dir : string; pw_shell : string
}.
Record group_entry := {
  gr_name : string; gr_passwd : string; gr_gid : string; gr_mem : string
}.

(** The files the script reads and edits, and the [chown -R] calls it
    made, as (owner, group, directory), latest last. *)
Record Container := {
  etc_passwd : list passwd_entry;
  etc_group : list group_entry;
  chowned : list (string * string * string)
}.

(** First line of the script: every line of [/etc/passwd] for
    [REMOTE_USER] prints three assignments and [eval] runs them in file
    order, so the last such line decides.  The variables start unset,
    which the shell reads as empty. *)
Definition sed_old_ids (REMOTE_USER : string) (passwd : list passwd_entry)
    : string * string * string :=
  fold_left
    (fun vars e =>
       if String.eqb (pw_name e) REMOTE_USER
       then (pw_uid e, pw_gid e, pw_dir e) else vars)
    passwd (EmptyString, EmptyString, EmptyString).

(** Second line: the name of the last user whose id is [NEW_UID]. *)
Definition sed_existing_user (NEW_UID : string) (passwd : list passwd_entry)
    : string :=
  fold_left
    (fun var e => if String.eqb (pw_uid e) NEW_UID then pw_name e else var)
    passwd EmptyString.

(** Third line: the name of the last group whose id is [NEW_GID]. *)
Definition sed_existing_group (NEW_GID : string) (group : list group_entry)
    : string :=
  fold_left
    (fun var g => if String.eqb (gr_gid g) NEW_GID then gr_name g else var)
    group EmptyString.

(** [sed -i] on [/etc/passwd]: the ids of every line of [REMOTE_USER]. *)
Definition sed_set_ids (REMOTE_USER NEW_UID NEW_GID : string)
    (passwd : list passwd_entry) : list passwd_entry :=
  map (fun e =>
         if String.eqb (pw_name e) REMOTE_USER
         then {| pw_name := pw_name e; pw_passwd := pw_passwd e;
                 pw_uid := NEW_UID; pw_gid := NEW_GID;
                 pw_gecos := pw_gecos e; pw_dir := pw_dir e;
                 pw_shell := pw_shell e |}
         else e) passwd.

(** [sed -i] on [/etc/group]: the id of every group numbered [OLD_GID]. *)
Definition sed_set_gid (OLD_GID NEW_GID : string) (group : list group_entry)
    : list group_entry :=
  map (fun g =>
         if String.eqb (gr_gid g) OLD_GID
         then {| gr_name := gr_name g; gr_passwd := gr_passwd g;
                 gr_gid := NEW_GID; gr_mem := gr_mem g |}
         else g) group.

(** The script, run on a container with the three variables of its
    environment: the lines it echoes and the container it leaves. *)
Definition UPDATE_UID_GID_SCRIPT (REMOTE_USER NEW_UID NEW_GID : string)
    (c : Container) : list string * Container :=
  let '(OLD_UID, OLD_GID, HOME_FOLDER) := sed_old_ids REMOTE_USER (etc_passwd c) in
  let EXISTING_USER := sed_existing_user NEW_UID (etc_passwd c) in
  let EXISTING_GROUP := sed_existing_group NEW_GID (etc_group c) in
  if String.eqb OLD_UID EmptyString then
    (["Remote user not found in /etc/passwd (" +:+ REMOTE_USER +:+ ")."], c)
  else if String.eqb OLD_UID NEW_UID && String.eqb OLD_GID NEW_GID then
    (["UIDs and GIDs are the same (" +:+ NEW_UID +:+ ":" +:+ NEW_GID +:+ ")."], c)
  else if negb (String.eqb OLD_UID NEW_UID)
          && negb (String.eqb EXISTING_USER EmptyString) then
    (["User with UID exists (" +:+ EXISTING_USER +:+ "=" +:+ NEW_UID +:+ ")."], c)
  else
    let '(echo1, NEW_GID) :=
      if negb (String.eqb OLD_GID NEW_GID)
         && negb (String.eqb EXISTING_GROUP EmptyString)
      then (["Group with GID exists (" +:+ EXISTING_GROUP +:+ "=" +:+ NEW_GID +:+ ")."],
            OLD_GID)
      else ([], NEW_GID) in
    let echo2 :=
      ["Updating UID:GID from " +:+ OLD_UID +:+ ":" +:+ OLD_GID +:+ " to "
         +:+ NEW_UID +:+ ":" +:+ NEW_GID +:+ "."] in
    let passwd := sed_set_ids REMOTE_USER NEW_UID NEW_GID (etc_passwd c) in
    let group :=
      if negb (String.eqb OLD_GID NEW_GID)
      then sed_set_gid OLD_GID NEW_GID (etc_group c)
      else etc_group c in
    ((echo1 ++ echo2)%list,
     {| etc_passwd := passwd; etc_group := group;
        chowned := chowned c ++ [(NEW_UID, NEW_GID, HOME_FOLDER)] |}).

(** *** Types and calls of other packages

    [models.BuildConfig], [detect.BuilderType], [ssh.Client],
    [models.Workspace], [models.GitProviderConfig] and the options of
    the two entry points, with the fields this file touches. *)
Record DevcontainerConfig := { FilePath : string }.
Record BuildConfig := { Devcontainer : option DevcontainerConfig }.

(** The two tags [CreateWorkspace] switches on, and any other value. *)
Inductive BuilderType :=
| BuilderTypeDevcontainer
| BuilderTypeImage
| BuilderTypeOther (name : string).

(** A remote shell, by what its two calls answer. *)
Record SshClient := {
  ssh_Exec : string -> option error;
  ssh_GetUserUidGid : string * string * option error
}.

Record Workspace := {
  ws_Id : string; ws_Name : string; ws_TargetId : string;
  ws_Image : string; ws_Repository : string;
  ws_BuildConfig : option BuildConfig;
  ws_EnvVars : gmap string string
}.

Record GitProviderConfig := { Username : string; Token : string }.

(** [CreateWorkspaceOptions]; its [LogWriter] is the log of the [World]
    below and the lookup in its [ContainerRegistries] is a call of
    [Deps]. *)
Record CreateWorkspaceOptions := {
  opt_Workspace : Workspace;
  opt_BuilderImage : string;
  opt_SshClient : option SshClient;
  opt_WorkspaceDir : string;
  opt_Gpc : option GitProviderConfig
}.

Record CreateDevcontainerOptions := {
  dc_WorkspaceDir : string;
  dc_WorkspaceFolderName : string;
  dc_BuildConfig : option BuildConfig;
  dc_SshClient : option SshClient;
  dc_BuilderImage : string;
  dc_EnvVars : gmap string string;
  dc_IdLabels : gmap string string;
  dc_Prebuild : bool
}.

(** The command of an [ExecSync]: [sh -c] on the script above, or any
    other argument vector. *)
Inductive command :=
| sh_c_UPDATE_UID_GID_SCRIPT
| argv (args : list string).

(** What this file calls and does not define: the platform, the
    operating system, the Docker API and the methods of [DockerClient]
    kept in other files, each by the answer it gives. *)
Record Deps := {
  GOOS : string;
  user_Current : string * string * option error;
  os_MkdirAll : string -> option error;
  filepath_Dir : string -> string;
  WorkspaceFolderName : Workspace -> string;
  CloneRepositoryCmd : string -> string -> option (string * string) -> list string;
  FindContainerRegistryByImageName : string -> option string;
  PullImage_err : string -> option error;
  ContainerCreate : string -> string -> string * option error;
  ContainerStart : string -> option error;
  ExecSync_err : string -> command -> option error;
  ExecSync_exit : list string -> Z;
  DetectWorkspaceBuilderType :
    BuildConfig -> string -> option SshClient -> BuilderType * option error;
  CreateFromDevcontainer_err : CreateDevcontainerOptions -> option error;
  initWorkspaceContainer_err : CreateWorkspaceOptions -> bool -> option error
}.

(** The calls that reach outside the process, in the order made. *)
Inductive Event :=
| ev_PullImage (image : string) (cr : option string)
| ev_MkdirAll (dir : string)
| ev_ssh_Exec (cmd : string)
| ev_ContainerCreate (image name mountSource : string)
| ev_ContainerStart (id : string)
| ev_RemoveContainer (id : string)
| ev_ExecSync (id user : string) (cmd : command) (env : list (string * string))
| ev_CreateFromDevcontainer (o : CreateDevcontainerOptions)
| ev_initWorkspaceContainer (mountWorkspaceDirectory : bool).

(** The world a provisioning run acts on: the files of the disposable
    clone container (those of the builder image when it is created), the
    lines written to [opts.LogWriter], and the calls made so far. *)
Record World := {
  ctr : Container;
  LogWriter : list string;
  events : list Event
}.

Definition emit (e : Event) (w : World) : World :=
  {| ctr := ctr w; LogWriter := LogWriter w; events := events w ++ [e] |}.

(** The value of a variable in the environment of a command; unset
    reads as empty. *)
Fixpoint getenv (env : list (string * string)) (name : string) : string :=
  match env with
  | [] => EmptyString
  | (n, v) :: rest => if String.eqb n name then v else getenv rest name
  end.

(** [d.PullImage(image, cr, logWriter)]. *)
Definition PullImage (d : Deps) (image : string) (cr : option string)
    (w : World) : option error * World :=
  (PullImage_err d image, emit (ev_PullImage image cr) w).

(** [d.ExecSync(containerId, ExecOptions{User, Cmd, Env}, logWriter)]:
    the exit code and the error.  A call the API refuses runs
    nothing.  The script edits the container and its output goes to the
    log writer; its exit code is that of its last command. *)
Definition ExecSync (d : Deps) (containerId user : string) (cmd : command)
    (env : list (string * string)) (w : World) : Z * option error * World :=
  let w := emit (ev_ExecSync containerId user cmd env) w in
  match ExecSync_err d user cmd with
  | Some err => (0%Z, Some err, w)
  | None =>
      match cmd with
      | sh_c_UPDATE_UID_GID_SCRIPT =>
          let '(out, c) :=
            UPDATE_UID_GID_SCRIPT (getenv env "REMOTE_USER")
              (getenv env "NEW_UID") (getenv env "NEW_GID") (ctr w) in
          (0%Z, None,
           {| ctr := c; LogWriter := LogWriter w ++ out; events := events w |})
      | argv args => (ExecSync_exit d args, None, w)
      end
  end.

(** *** The functions of the file *)

(** The pair of the container user and the error. *)
Definition updateContainerUserUidGid (d : Deps) (containerId : string)
    (opts : CreateWorkspaceOptions) (w : World)
    : string * option error * World :=
  let '(currentUser_Uid, currentUser_Gid, err) := user_Current d in
  match err with
  | Some err => (EmptyString, Some err, w)
  | None =>
      let containerUser := "daytona" in
      let '(newUid, newGid, err) :=
        match opt_SshClient opts with
        | Some sshClient => ssh_GetUserUidGid sshClient
        | None => (currentUser_Uid, currentUser_Gid, None)
        end in
      match err with
      | Some err => (EmptyString, Some err, w)
      | None =>
          let containerUser :=
            if String.eqb newUid "0" && String.eqb newGid "0"
            then "root" else containerUser in
          (* Patch UID and GID of the user cloning the repository *)
          if negb (String.eqb containerUser "root") then
            let '(_, err, w) :=
              ExecSync d containerId "root" sh_c_UPDATE_UID_GID_SCRIPT
                [("REMOTE_USER", containerUser); ("NEW_UID", newUid);
                 ("NEW_GID", newGid)] w in
            match err with
            | Some err => (EmptyString, Some err, w)
            | None => (containerUser, None, w)
            end
          else (containerUser, None, w)
      end
  end.

(** The goroutine that copies the container's logs to the log writer
    runs beside the function and is not part of this sequential model.
    The error of [updateContainerUserUidGid] is overwritten by the
    [ExecSync] that follows, unread, as in the source. *)
Definition cloneWorkspaceRepository (d : Deps) (opts : CreateWorkspaceOptions)
    (w : World) : option error * World :=
  let '(err, w) :=
    match opt_SshClient opts with
    | Some sshClient =>
        let cmd := "mkdir -p " +:+ opt_WorkspaceDir opts in
        (ssh_Exec sshClient cmd, emit (ev_ssh_Exec cmd) w)
    | None =>
        (os_MkdirAll d (opt_WorkspaceDir opts),
         emit (ev_MkdirAll (opt_WorkspaceDir opts)) w)
    end in
  match err with
  | Some err => (Some err, w)
  | None =>
      let auth :=
        match opt_Gpc opts with
        | Some gpc => Some (Username gpc, Token gpc)
        | None => None
        end in
      let gitService_WorkspaceDir :=
        "/workdir/" +:+ WorkspaceFolderName d (opt_Workspace opts) in
      let cloneCmd :=
        CloneRepositoryCmd d gitService_WorkspaceDir
          (ws_Repository (opt_Workspace opts)) auth in
      let name :=
        "git-clone-" +:+ ws_TargetId (opt_Workspace opts) +:+ "-"
          +:+ ws_Name (opt_Workspace opts) in
      let '(c_ID, err) := ContainerCreate d (opt_BuilderImage opts) name in
      let w :=
        emit (ev_ContainerCreate (opt_BuilderImage opts) name
                (filepath_Dir d (opt_WorkspaceDir opts))) w in
      match err with
      | Some err => (Some err, w)
      | None =>
          (* from here on the deferred RemoveContainer runs at every return *)
          let '(result, w) :=
            let w := emit (ev_ContainerStart c_ID) w in
            match ContainerStart d c_ID with
            | Some err => (Some err, w)
            | None =>
                let containerUser := "daytona" in
                let '(containerUser, _, w) :=
                  if negb (String.eqb (GOOS d) "windows")
                  then updateContainerUserUidGid d c_ID opts w
                  else (containerUser, None, w) in
                let '(res_ExitCode, err, w) :=
                  ExecSync d c_ID containerUser
                    (argv ["sh"; "-c"; String.concat " " cloneCmd]) [] w in
                match err with
                | Some err => (Some err, w)
                | None =>
                    if negb (res_ExitCode =? 0)%Z
                    then (Some ("git clone failed with exit code "
                                  +:+ creation_data.fmt_d res_ExitCode), w)
                    else (None, w)
                end
            end in
          (result, emit (ev_RemoveContainer c_ID) w)
      end
  end.

Definition toCreateDevcontainerOptions (d : Deps)
    (opts : CreateWorkspaceOptions) (prebuild : bool)
    : CreateDevcontainerOptions :=
  {| dc_WorkspaceDir := opt_WorkspaceDir opts;
     dc_WorkspaceFolderName := WorkspaceFolderName d (opt_Workspace opts);
     dc_BuildConfig := ws_BuildConfig (opt_Workspace opts);
     dc_SshClient := opt_SshClient opts;
     dc_BuilderImage := opt_BuilderImage opts;
     dc_EnvVars := ws_EnvVars (opt_Workspace opts);
     dc_IdLabels :=
       <["daytona.workspace.id" := ws_Id (opt_Workspace opts)]>
         (<["daytona.target.id" := ws_TargetId (opt_Workspace opts)]> ∅);
     dc_Prebuild := prebuild |}.

(** [d.CreateFromDevcontainer(opts)], of another file: its error. *)
Definition CreateFromDevcontainer (d : Deps) (o : CreateDevcontainerOptions)
    (w : World) : option error * World :=
  (CreateFromDevcontainer_err d o, emit (ev_CreateFromDevcontainer o) w).

(** Modelled from the spec: [createWorkspaceFromImage] is called by
    [CreateWorkspace] and defined in another file of the package.  The
    spec has the image path pull the workspace's image, skipping the
    pull if the exact image reference was already pulled in this
    operation (a cache keyed by image reference), and then provision the
    container from that image. *)
Definition createWorkspaceFromImage (d : Deps) (opts : CreateWorkspaceOptions)
    (pulledImages : gmap string bool) (mountWorkspaceDirectory : bool)
    (w : World) : option error * World :=
  let image := ws_Image (opt_Workspace opts) in
  let '(err, pulledImages, w) :=
    if default false (pulledImages !! image) then (None, pulledImages, w)
    else
      let cr := FindContainerRegistryByImageName d image in
      let '(err, w) := PullImage d image cr w in
      match err with
      | Some err => (Some err, pulledImages, w)
      | None => (None, <[image := true]> pulledImages, w)
      end in
  match err with
  | Some err => (Some err, w)
  | None =>
      (initWorkspaceContainer_err d opts mountWorkspaceDirectory,
       emit (ev_initWorkspaceContainer mountWorkspaceDirectory) w)
  end.

Definition CreateWorkspace (d : Deps) (opts : CreateWorkspaceOptions)
    (w : World) : option error * World :=
  (* pulledImages keeps track of the images pulled for this creation *)
  let pulledImages : gmap string bool := ∅ in
  match ws_BuildConfig (opt_Workspace opts) with
  | Some buildConfig =>
      let cr := FindContainerRegistryByImageName d (opt_BuilderImage opts) in
      let '(err, w) := PullImage d (opt_BuilderImage opts) cr w in
      match err with
      | Some err => (Some err, w)
      | None =>
          let pulledImages := <[opt_BuilderImage opts := true]> pulledImages in
          let '(err, w) := cloneWorkspaceRepository d opts w in
          match err with
          | Some err => (Some err, w)
          | None =>
              let '(builderType, err) :=
                DetectWorkspaceBuilderType d buildConfig
                  (opt_WorkspaceDir opts) (opt_SshClient opts) in
              match err with
              | Some err => (Some err, w)
              | None =>
                  match builderType with
                  | BuilderTypeDevcontainer =>
                      CreateFromDevcontainer d
                        (toCreateDevcontainerOptions d opts true) w
                  | BuilderTypeImage =>
                      createWorkspaceFromImage d opts pulledImages true w
                  | BuilderTypeOther name =>
                      (Some ("unknown builder type: " +:+ name), w)
                  end
              end
          end
      end
  | None => createWorkspaceFromImage d opts pulledImages false w
  end.

(** The images pulled among a list of calls. *)
Definition pulls (evs : list Event) : list string :=
  omap (fun e => match e with ev_PullImage image _ => Some image | _ => None end)
    evs.


End docker.

(** ** The workspace service *)
Module workspaces.

(** Modelled from the spec: the data of the workspace service, whose
    source is not at hand.  The entity of the Store has an identifier, a
    name, the target resolved at creation (with its runner), the issued
    API key, labels and a soft-delete flag; a Job is one action against
    one resource; the collaborators are injected functions. *)
Record Workspace := {
  Id : string; Name : string; TargetId : string; RunnerId : string;
  ApiKey : string; Labels : gmap string string; Deleted : bool
}.

Inductive JobAction := JobActionCreate | JobActionStart | JobActionStop
                     | JobActionDelete.

Record Job := {
  ResourceId : string; JobRunnerId : string; Action : JobAction
}.

(** What revoking an API key can answer besides success. *)
Inductive ApiKeyError := AlreadyRevoked | ApiKeyFailure (msg : string).

(** The errors of the service: the two lookup errors the test names
    ([stores.ErrWorkspaceNotFound], [services.ErrWorkspaceDeleted]) and
    the errors of the collaborators, passed on. *)
Inductive ServiceError :=
| ErrWorkspaceNotFound
| ErrWorkspaceDeleted
| ErrApiKey (e : ApiKeyError)
| ErrJob (msg : string).

(** The injected collaborators the three operations use. *)
Record WorkspaceServiceConfig := {
  DeleteApiKey : string -> option ApiKeyError;
  CreateJob : string -> string -> JobAction -> option error
}.

(** The Workspace Store, rows keyed by id, and the Job Ledger. *)
Record Service := {
  Store : gmap string Workspace;
  Ledger : list Job
}.

(** Modelled from the spec: [workspaceStore.Save(ws)], as the test calls
    it; rows are keyed by id, so saving is an upsert by id. *)
Definition Save (ws : Workspace) (s : Service) : Service :=
  {| Store := <[Id ws := ws]> (Store s); Ledger := Ledger s |}.

(** Modelled from the spec: [Find] of the workspace service, whose
    source is not at hand (its test is).  The spec has it return the
    workspace and fail [NotFound] or [Deleted] distinctly: [NotFound]
    when there is no such entity, [Deleted] when the entity exists but
    is soft-deleted. *)
Definition Find (id : string) (s : Service) : ServiceError + Workspace :=
  match Store s !! id with
  | None => inl ErrWorkspaceNotFound
  | Some ws => if Deleted ws then inl ErrWorkspaceDeleted else inr ws
  end.

(** Modelled from the spec: the soft-delete flag set, and a Job appended
    to the Ledger. *)
Definition mark_deleted (ws : Workspace) : Workspace :=
  {| Id := Id ws; Name := Name ws; TargetId := TargetId ws;
     RunnerId := RunnerId ws; ApiKey := ApiKey ws; Labels := Labels ws;
     Deleted := true |}.

Definition enqueue (ws : Workspace) (a : JobAction) (l : list Job) : list Job :=
  l ++ [{| ResourceId := Id ws; JobRunnerId := RunnerId ws; Action := a |}].

(** Modelled from the spec: [Delete] of the workspace service, whose
    source is not at hand.  The spec has the soft delete revoke the API
    key (bound to the workspace id), mark the entity deleted and
    enqueue a [delete] Job, in this order; the row stays in the Store.
    A step that fails ends the operation with its error. *)
Definition Delete (cfg : WorkspaceServiceConfig) (id : string) (s : Service)
    : option ServiceError * Service :=
  match Store s !! id with
  | None => (Some ErrWorkspaceNotFound, s)
  | Some ws =>
      match DeleteApiKey cfg (Id ws) with
      | Some e => (Some (ErrApiKey e), s)
      | None =>
          let s := {| Store := <[id := mark_deleted ws]> (Store s);
                      Ledger := Ledger s |} in
          match CreateJob cfg (Id ws) (RunnerId ws) JobActionDelete with
          | Some msg => (Some (ErrJob msg), s)
          | None =>
              (None, {| Store := Store s;
                        Ledger := enqueue ws JobActionDelete (Ledger s) |})
          end
      end
  end.


End workspaces.

(** ** Sample inputs *)
Module samples.
Import docker.

Definition user (name uid gid home : string) : passwd_entry :=
  {| pw_name := name; pw_passwd := "x"; pw_uid := uid; pw_gid := gid;
     pw_gecos := EmptyString; pw_dir := home; pw_shell := "/bin/bash" |}.

Definition group (name gid : string) : group_entry :=
  {| gr_name := name; gr_passwd := "x"; gr_gid := gid;
     gr_mem := EmptyString |}.


(** A builder image where [daytona] is the first user, and a group
    [docker] numbered 1001. *)
Definition daytona_first : Container :=
  {| etc_passwd := [user "root" "0" "0" "/root";
                    user "daytona" "1000" "1000" "/home/daytona"];
     etc_group := [group "root" "0"; group "daytona" "1000";
                   group "docker" "1001"];
     chowned := [] |}.

(** A Linux host whose current user has the given ids, with a Docker
    daemon where every call succeeds, the clone exits with 0 and the
    detection answers [builderType]. *)
Definition host (uid gid : string) (builderType : BuilderType) : Deps :=
  {| GOOS := "linux";
     user_Current := (uid, gid, None);
     os_MkdirAll := λ _, None;
     filepath_Dir := λ _, "/home/daytona/.workspaces";
     WorkspaceFolderName := ws_Name;
     CloneRepositoryCmd := λ dir url _, ["git"; "clone"; url; dir];
     FindContainerRegistryByImageName := λ _, None;
     PullImage_err := λ _, None;
     ContainerCreate := λ _ _, ("c1", None);
     ContainerStart := λ _, None;
     ExecSync_err := λ _ _, None;
     ExecSync_exit := λ _, 0%Z;
     DetectWorkspaceBuilderType := λ _ _ _, (builderType, None);
     CreateFromDevcontainer_err := λ _, None;
     initWorkspaceContainer_err := λ _ _, None |}.

(** A workspace with a build configuration whose image is the builder
    image, on a local target. *)
Definition opts : CreateWorkspaceOptions :=
  {| opt_Workspace :=
       {| ws_Id := "w1"; ws_Name := "app"; ws_TargetId := "local";
          ws_Image := "daytonaio/workspace-project:latest";
          ws_Repository := "https://github.com/daytonaio/daytona";
          ws_BuildConfig := Some {| Devcontainer := None |};
          ws_EnvVars := ∅ |};
     opt_BuilderImage := "daytonaio/workspace-project:latest";
     opt_SshClient := None;
     opt_WorkspaceDir := "/home/daytona/.workspaces/app";
     opt_Gpc := None |}.

Definition world (c : Container) : World :=
  {| ctr := c; LogWriter := []; events := [] |}.

(** The workspace of the service test, stored and never deleted, and
    collaborators that succeed. *)
Definition ws : workspaces.Workspace :=
  {| workspaces.Id := "123"; workspaces.Name := "workspace1";
     workspaces.TargetId := "123"; workspaces.RunnerId := "runner";
     workspaces.ApiKey := "workspace1"; workspaces.Labels := ∅;
     workspaces.Deleted := false |}.

Definition service : workspaces.Service :=
  workspaces.Save ws {| workspaces.Store := ∅; workspaces.Ledger := [] |}.

Definition collaborators : workspaces.WorkspaceServiceConfig :=
  {| workspaces.DeleteApiKey := λ _, None;
     workspaces.CreateJob := λ _ _ _, None |}.

End samples.

(** ** creation_data.go, the other functions *)
Module creation_data_rest.
Import creation_data.

(** *** [GetSanitizedWorkspaceName] *)

(** [ishex] and [unhex] of package [net/url], on a byte. *)
Definition ishex (c : ascii) : bool :=
  let n := nat_of_ascii c in
  ((48 <=? n)%nat && (n <=? 57)%nat)
  || ((97 <=? n)%nat && (n <=? 102)%nat)
  || ((65 <=? n)%nat && (n <=? 70)%nat).

Definition unhex (c : ascii) : nat :=
  let n := nat_of_ascii c in
  if (48 <=? n)%nat && (n <=? 57)%nat then n - 48
  else if (97 <=? n)%nat && (n <=? 102)%nat then n - 97 + 10
  else if (65 <=? n)%nat && (n <=? 70)%nat then n - 65 + 10
  else 0.

(** First pass of [url.QueryUnescape]: the number of escapes and whether
    a plus sign occurs, or the [EscapeError] of the first escape that is
    not a percent sign followed by two hexadecimal digits: the text from
    that percent sign on, three bytes at most. *)
Fixpoint count_escapes (s : string) : nat * bool + string :=
  match s with
  | EmptyString => inl (0, false)
  | String c rest =>
      if Ascii.eqb c "%" then
        match rest with
        | String a (String b rest') =>
            if ishex a && ishex b then
              match count_escapes rest' with
              | inl (n, hasPlus) => inl (S n, hasPlus)
              | inr e => inr e
              end
            else inr (substring 0 3 s)
        | _ => inr (substring 0 3 s)
        end
      else
        match count_escapes rest with
        | inl (n, hasPlus) => inl (n, Ascii.eqb c "+" || hasPlus)
        | inr e => inr e
        end
  end.

(** Second pass: an escape becomes the byte it names, a plus sign a
    blank.  It runs on checked text only; an escape cut short, which the
    first pass rules out, is copied. *)
Fixpoint write_unescaped (s : string) : string :=
  match s with
  | EmptyString => EmptyString
  | String c rest =>
      if Ascii.eqb c "%" then
        match rest with
        | String a (String b rest') =>
            String (ascii_of_nat (16 * unhex a + unhex b)) (write_unescaped rest')
        | _ => s
        end
      else if Ascii.eqb c "+" then String " " (write_unescaped rest)
      else String c (write_unescaped rest)
  end.

(** [url.QueryUnescape]; the error is the [EscapeError], identified with
    the fragment it carries. *)
Definition QueryUnescape (s : string) : string * option error :=
  match count_escapes s with
  | inr e => (EmptyString, Some e)
  | inl (n, hasPlus) =>
      if (n =? 0)%nat && negb hasPlus then (s, None)
      else (write_unescaped s, None)
  end.

(** [strings.ReplaceAll(s, old, new)] for patterns of one byte. *)
Fixpoint ReplaceAll (s : string) (old new : ascii) : string :=
  match s with
  | EmptyString => EmptyString
  | String c rest =>
      String (if Ascii.eqb c old then new else c) (ReplaceAll rest old new)
  end.

Definition GetSanitizedWorkspaceName (workspaceName : string)
    : string * option error :=
  let '(workspaceName, err) := QueryUnescape workspaceName in
  match err with
  | Some err => (EmptyString, Some err)
  | None =>
      let workspaceName := ReplaceAll workspaceName " " "-" in
      (workspaceName, None)
  end.

(** *** [GetGitProviderConfigIdFromFlag] *)

(** [apiclient.GitProvider], with the two fields compared. *)
Record GitProvider := { gp_Id : string; gp_Alias : string }.

(** The API client, by what [ListGitProviders] answers (the list and the
    error) and by the error [apiclient_util.HandleErrorResponse] makes
    of it. *)
Record ApiClient := {
  ListGitProviders : list GitProvider * option error;
  HandleErrorResponse : error -> error
}.

(** The [for ... range] loop: the first configuration whose id or alias
    is the flag. *)
Fixpoint find_config (flag : string) (gitProviderConfigs : list GitProvider)
    : option string :=
  match gitProviderConfigs with
  | [] => None
  | gitProviderConfig :: rest =>
      if String.eqb (gp_Id gitProviderConfig) flag
      then Some (gp_Id gitProviderConfig)
      else if String.eqb (gp_Alias gitProviderConfig) flag
      then Some (gp_Id gitProviderConfig)
      else find_config flag rest
  end.

(** The pointer returned, the error, and the number of requests sent to
    the API. *)
Definition GetGitProviderConfigIdFromFlag (apiClient : ApiClient)
    (gitProviderConfigFlag : option string)
    : option string * option error * nat :=
  match gitProviderConfigFlag with
  | None => (gitProviderConfigFlag, None, 0)
  | Some flag =>
      if String.eqb flag EmptyString then (gitProviderConfigFlag, None, 0)
      else
        let '(gitProviderConfigs, err) := ListGitProviders apiClient in
        match err with
        | Some err => (None, Some (HandleErrorResponse apiClient err), 1)
        | None =>
            match find_config flag gitProviderConfigs with
            | Some id => (Some id, None, 1)
            | None =>
                (None,
                 Some ("git provider config '" +:+ flag +:+ "' not found"), 1)
            end
        end
  end.

(** *** [setInitialWorkspaceNames] *)

(** [apiclient.CreateWorkspaceDTO] with its [Id] and [Name], beside the
    fields modelled above, and [apiclient.WorkspaceDTO] with its name. *)
Record NamedWorkspaceDTO := {
  Id : string;
  Name : string;
  settings : CreateWorkspaceDTO
}.

Record WorkspaceDTO := { ws_Name : string }.

Definition set_Name (dto : NamedWorkspaceDTO) (name : string)
    : NamedWorkspaceDTO :=
  {| Id := Id dto; Name := name; settings := settings dto |}.

(** The first loop: the names of the existing workspaces, as a map. *)
Definition existing_names (existingWorkspaces : list WorkspaceDTO)
    : gmap string bool :=
  fold_left (fun existingNames workspace => <[ws_Name workspace := true]> existingNames)
    existingWorkspaces ∅.

(** The inner loop, [for existingNames[newName] { ... counter++ }], which
    has no bound in the source; [fuel] counts the iterations the model
    may run. *)
Fixpoint free_name_loop (fuel : nat) (existingNames : gmap string bool)
    (originalName newName : string) (counter : Z) : option string :=
  match fuel with
  | O => None
  | S fuel' =>
      if default false (existingNames !! newName)
      then free_name_loop fuel' existingNames originalName
             (originalName +:+ fmt_d counter) (int_wrap (counter + 1))
      else Some newName
  end.

(** The names the inner loop tries, in order: the original name, then
    the name followed by 2, by 3, and so on. *)
Definition candidate (originalName : string) (k : nat) : string :=
  match k with
  | O => originalName
  | S k' => originalName +:+ fmt_d (Z.of_nat k' + 2)
  end.

(** The second loop, over the DTOs, with the map it extends. *)
Fixpoint set_names (fuel : nat) (createWorkspaceDtos : list NamedWorkspaceDTO)
    (existingNames : gmap string bool) : option (list NamedWorkspaceDTO) :=
  match createWorkspaceDtos with
  | [] => Some []
  | dto :: rest =>
      let originalName := Name dto in
      match free_name_loop fuel existingNames originalName originalName 2 with
      | None => None
      | Some newName =>
          match set_names fuel rest (<[newName := true]> existingNames) with
          | None => None
          | Some rest' => Some (set_Name dto newName :: rest')
          end
      end
  end.

(** The slice behind the pointer after the call, or [None] when the fuel
    ran out. *)
Definition setInitialWorkspaceNames (fuel : nat)
    (createWorkspaceDtos : list NamedWorkspaceDTO)
    (existingWorkspaces : list WorkspaceDTO) : option (list NamedWorkspaceDTO) :=
  set_names fuel createWorkspaceDtos (existing_names existingWorkspaces).

End creation_data_rest.

(** ** The steps of the clone, by name

    The expressions [cloneWorkspaceRepository] builds on its way, named
    so that statements about it can refer to them. *)
Module docker_rest.
Import docker.

(** The error of the [mkdir -p] of the workspace directory: over the
    remote shell when there is one, with [os.MkdirAll] otherwise. *)
Definition mkdir_err (d : Deps) (opts : CreateWorkspaceOptions)
    : option error :=
  match opt_SshClient opts with
  | Some sshClient => ssh_Exec sshClient ("mkdir -p " +:+ opt_WorkspaceDir opts)
  | None => os_MkdirAll d (opt_WorkspaceDir opts)
  end.

Definition mkdir_event (opts : CreateWorkspaceOptions) : Event :=
  match opt_SshClient opts with
  | Some _ => ev_ssh_Exec ("mkdir -p " +:+ opt_WorkspaceDir opts)
  | None => ev_MkdirAll (opt_WorkspaceDir opts)
  end.

(** The name given to the disposable container. *)
Definition clone_container_name (opts : CreateWorkspaceOptions) : string :=
  "git-clone-" +:+ ws_TargetId (opt_Workspace opts) +:+ "-"
    +:+ ws_Name (opt_Workspace opts).

(** The [Cmd] of the [ExecSync] that clones. *)
Definition clone_args (d : Deps) (opts : CreateWorkspaceOptions)
    : list string :=
  ["sh"; "-c";
   String.concat " "
     (CloneRepositoryCmd d
        ("/workdir/" +:+ WorkspaceFolderName d (opt_Workspace opts))
        (ws_Repository (opt_Workspace opts))
        match opt_Gpc opts with
        | Some gpc => Some (Username gpc, Token gpc)
        | None => None
        end)].

(** The [User] of the [ExecSync] that clones, in the container [c_ID]:
    what [updateContainerUserUidGid] answered, [daytona] on Windows. *)
Definition clone_user (d : Deps) (opts : CreateWorkspaceOptions)
    (c_ID : string) (w : World) : string :=
  if negb (String.eqb (GOOS d) "windows")
  then (updateContainerUserUidGid d c_ID opts w).1.1
  else "daytona".

(** The value [cloneWorkspaceRepository] returns after its
    [ExecSync]. *)
Definition clone_result (d : Deps) (opts : CreateWorkspaceOptions)
    (user : string) : option error :=
  match ExecSync_err d user (argv (clone_args d opts)) with
  | Some err => Some err
  | None =>
      if negb (ExecSync_exit d (clone_args d opts) =? 0)%Z
      then Some ("git clone failed with exit code "
                   +:+ creation_data.fmt_d (ExecSync_exit d (clone_args d opts)))
      else None
  end.

End docker_rest.

(** ** Sample inputs for the other functions *)
Module samples_rest.
Import creation_data creation_data_rest.

Definition blank_settings : CreateWorkspaceDTO :=
  {| GitProviderConfigId := None; BuildConfig_ := None; Image := None;
     User := None; EnvVars := ∅; Labels := ∅ |}.

Definition dto (id name : string) : NamedWorkspaceDTO :=
  {| Id := id; Name := name; settings := blank_settings |}.


End samples_rest.

(** * Properties *)

(** ** Name suggestion *)
Section suggested_name.
Import creation_data.

Lemma slices_Contains_elem_of (s : list string) (v : string) :
  slices_Contains s v = true ↔ v ∈ s.
Proof.
  induction s as [|x rest IH]; simpl.
  - split; [discriminate | intros H; inversion H].
  - destruct (String.eqb_spec v x) as [->|Hne].
    + split; [intros _; left | reflexivity].
    + rewrite IH. split; [by right | intros H].
      apply elem_of_cons in H as [?|?]; [contradiction | done].
Qed.

Lemma slices_Contains_false (s : list string) (v : string) :
  slices_Contains s v = false ↔ v ∉ s.
Proof.
  rewrite <- slices_Contains_elem_of.
  destruct (slices_Contains s v); split; done.
Qed.

Lemma fmt_d_inj (i j : Z) : fmt_d i = fmt_d j → i = j.
Proof.
  unfold fmt_d. intros H. apply DecimalZ.to_int_inj.
  assert (E : NilEmpty.int_of_string (NilEmpty.string_of_int (Z.to_int i))
              = NilEmpty.int_of_string (NilEmpty.string_of_int (Z.to_int j)))
    by (by rewrite H).
  rewrite !NilEmpty.isi in E. by injection E.
Qed.

Lemma append_inj_r (s a b : string) : s +:+ a = s +:+ b → a = b.
Proof.
  induction s as [|c s IH]; simpl; [done|].
  intros H. injection H as H. by apply IH.
Qed.

Lemma candidate_inj (s : string) (i j : Z) :
  s +:+ fmt_d i = s +:+ fmt_d j → i = j.
Proof. intros H. by apply fmt_d_inj, (append_inj_r s). Qed.

Lemma int_wrap_id (z : Z) : (int_min ≤ z ≤ int_max)%Z → int_wrap z = z.
Proof.
  unfold int_min, int_max, int_wrap. intros H.
  rewrite Z.mod_small; lia.
Qed.

(** More fuel does not change a result. *)
Lemma suggestion_loop_mono (s : string) (names : list string) (fuel : nat) :
  ∀ (fuel' : nat) i r, (fuel ≤ fuel')%nat →
    suggestion_loop fuel s names i = Some r →
    suggestion_loop fuel' s names i = Some r.
Proof.
  induction fuel as [|fuel IH]; intros fuel' i r Hle H; [discriminate|].
  destruct fuel' as [|fuel']; [lia|]. simpl in *.
  destruct (negb _); [done|]. apply IH; [lia | done].
Qed.

(** The loop started at [i] stops at the first free index [m] at or
    after [i], if it has the fuel to get there without leaving the
    range of [int]. *)
Lemma suggestion_loop_first_free (s : string) (names : list string) (m : Z) :
  (m ≤ int_max)%Z → s +:+ fmt_d m ∉ names →
  ∀ fuel i, (2 ≤ i ≤ m)%Z →
    (∀ j, (i ≤ j < m)%Z → s +:+ fmt_d j ∈ names) →
    (Z.to_nat (m - i) < fuel)%nat →
    suggestion_loop fuel s names i = Some (s +:+ fmt_d m).
Proof.
  intros Hmax Hfree fuel.
  induction fuel as [|fuel IH]; intros i Hi Htaken Hfuel; [lia|].
  simpl. destruct (decide (i = m)) as [->|Hne].
  - apply slices_Contains_false in Hfree. by rewrite Hfree.
  - assert (Hin : s +:+ fmt_d i ∈ names) by (apply Htaken; lia).
    apply slices_Contains_elem_of in Hin. rewrite Hin. simpl.
    rewrite int_wrap_id by (unfold int_min, int_max in *; lia).
    apply IH; [lia | intros j Hj; apply Htaken; lia | lia].
Qed.

(** Among the first [length names + 1] candidates one is free. *)
Lemma candidate_free (s : string) (names : list string) :
  ∃ k : nat, (k ≤ length names)%nat ∧ s +:+ fmt_d (2 + Z.of_nat k) ∉ names.
Proof.
  set (cand := λ k : nat, s +:+ fmt_d (2 + Z.of_nat k)).
  destruct (decide (Forall (λ k, cand k ∈ names) (seq 0 (S (length names)))))
    as [Hall|Hnot].
  - exfalso.
    assert (Hinj : Inj (=) (=) cand).
    { intros a b Hab. apply candidate_inj in Hab. lia. }
    assert (Hsub : (cand <$> seq 0 (S (length names))) ⊆+ names).
    { apply NoDup_submseteq.
      - apply (NoDup_fmap_2 cand), NoDup_seq.
      - intros x Hx. apply list_elem_of_fmap in Hx as (k & -> & Hk).
        rewrite Forall_forall in Hall. by apply Hall. }
    apply submseteq_length in Hsub.
    rewrite length_fmap, length_seq in Hsub. lia.
  - apply not_Forall_Exists in Hnot; [|intros k; apply _].
    apply Exists_exists in Hnot as (k & Hk & Hfree).
    apply elem_of_seq in Hk. exists k. split; [lia | done].
Qed.

(** The least free candidate. *)
Lemma candidate_least_free (s : string) (names : list string) :
  ∃ k : nat, (k ≤ length names)%nat ∧ (s +:+ fmt_d (2 + Z.of_nat k) ∉ names) ∧
       ∀ j : nat, (j < k)%nat → s +:+ fmt_d (2 + Z.of_nat j) ∈ names.
Proof.
  destruct (candidate_free s names) as (k0 & Hk0 & Hfree0).
  revert Hk0 Hfree0. generalize (length names) as n.
  induction k0 as [k0 IH] using lt_wf_ind. intros n Hk0 Hfree0.
  destruct (decide (Forall (λ j, s +:+ fmt_d (2 + Z.of_nat j) ∈ names) (seq 0 k0)))
    as [Hall|Hnot].
  - exists k0. split; [done|]. split; [done|].
    intros j Hj. rewrite Forall_forall in Hall. apply Hall, elem_of_seq. lia.
  - apply not_Forall_Exists in Hnot; [|intros k; apply _].
    apply Exists_exists in Hnot as (k & Hk & Hfree).
    apply elem_of_seq in Hk.
    apply (IH k); [lia | lia | done].
Qed.

(** C8.  [GetSuggestedName] terminates on every suggestion and every
    list of existing names (a slice, whose length leaves room for two
    more in an [int]): with more fuel than the list is long it returns,
    and whatever fuel makes it return, it returns the same name.  That
    name is not in the list; it is the suggestion itself when the
    suggestion is not in the list, and otherwise the suggestion followed
    by the least integer from 2 on whose suffixed name is not in the
    list. *)
Theorem GetSuggestedName_least_free_suffix
    (initialSuggestion : string) (existingNames : list string) :
  (Z.of_nat (length existingNames) ≤ int_max - 2)%Z →
  ∃ name,
    (∀ fuel : nat, (length existingNames < fuel)%nat →
       GetSuggestedName fuel initialSuggestion existingNames = Some name) ∧
    (∀ fuel name',
       GetSuggestedName fuel initialSuggestion existingNames = Some name' →
       name' = name) ∧
    (name ∉ existingNames) ∧
    (initialSuggestion ∉ existingNames → name = initialSuggestion) ∧
    (initialSuggestion ∈ existingNames →
       ∃ i, (2 ≤ i)%Z ∧ name = initialSuggestion +:+ fmt_d i ∧
            ∀ j, (2 ≤ j < i)%Z → initialSuggestion +:+ fmt_d j ∈ existingNames).
Proof.
  intros Hlen. unfold GetSuggestedName.
  destruct (slices_Contains existingNames initialSuggestion) eqn:Hc; simpl.
  - apply slices_Contains_elem_of in Hc.
    destruct (candidate_least_free initialSuggestion existingNames)
      as (k & Hk & Hfree & Hleast).
    set (m := (2 + Z.of_nat k)%Z) in *.
    assert (Hrun : ∀ fuel : nat, (length existingNames < fuel)%nat →
              suggestion_loop fuel initialSuggestion existingNames 2
              = Some (initialSuggestion +:+ fmt_d m)).
    { intros fuel Hfuel.
      apply suggestion_loop_first_free; [lia | done | lia | | lia].
      intros j Hj. replace j with (2 + Z.of_nat (Z.to_nat (j - 2)))%Z by lia.
      apply Hleast. lia. }
    exists (initialSuggestion +:+ fmt_d m).
    split; [|split; [|split; [|split]]].
    + done.
    + intros fuel name' H.
      apply (suggestion_loop_mono _ _ _ (fuel + S (length existingNames))) in H;
        [|lia].
      rewrite Hrun in H by lia. by injection H.
    + done.
    + intros Hnot. contradiction.
    + intros _. exists m. split; [lia|]. split; [done|].
      intros j Hj. replace j with (2 + Z.of_nat (Z.to_nat (j - 2)))%Z by lia.
      apply Hleast. lia.
  - apply slices_Contains_false in Hc.
    exists initialSuggestion.
    split; [|split; [|split; [|split]]]; try done.
    intros fuel name' H. by injection H.
Qed.

(** The theorem at a list of two names, where 2 is taken and 3 is
    free. *)
Lemma GetSuggestedName_least_free_suffix_witness :
  (Z.of_nat (length ["api"; "api2"]) ≤ int_max - 2)%Z ∧
  ∃ name,
    (∀ fuel : nat, (length ["api"; "api2"] < fuel)%nat →
       GetSuggestedName fuel "api" ["api"; "api2"] = Some name) ∧
    (∀ fuel name',
       GetSuggestedName fuel "api" ["api"; "api2"] = Some name' →
       name' = name) ∧
    (name ∉ ["api"; "api2"]) ∧
    ("api" ∉ ["api"; "api2"] → name = "api") ∧
    ("api" ∈ ["api"; "api2"] →
       ∃ i, (2 ≤ i)%Z ∧ name = "api" +:+ fmt_d i ∧
            ∀ j, (2 ≤ j < i)%Z → "api" +:+ fmt_d j ∈ ["api"; "api2"]).
Proof.
  assert (H : (Z.of_nat (length ["api"; "api2"]) ≤ int_max - 2)%Z)
    by (vm_compute; discriminate).
  split; [exact H|].
  exact (GetSuggestedName_least_free_suffix "api" ["api"; "api2"] H).
Defined.

Example GetSuggestedName_api :
  GetSuggestedName 3 "api" ["api"; "api2"] = Some "api3".
Proof. reflexivity. Qed.

End suggested_name.

(** ** Workspace DTO from flags *)
Section dto_from_flags.
Import creation_data.

Ltac eqb_facts :=
  repeat match goal with
    | H : String.eqb ?a ?b = true |- _ =>
        apply (proj1 (String.eqb_eq a b)) in H
    | H : String.eqb ?a ?b = false |- _ =>
        apply (proj1 (String.eqb_neq a b)) in H
    end.

Ltac crunch :=
  repeat first
    [ progress simpl
    | match goal with
      | H : String.eqb ?a ?b = _ |- context [String.eqb ?a ?b] => rewrite H
      end
    | match goal with
      | |- context [String.eqb ?a ?b] => destruct (String.eqb a b) eqn:?
      end
    | match goal with
      | |- context [deref ?p] => destruct p
      end
    | match goal with
      | |- context [match ?o with _ => _ end] => destruct o eqn:?
      end
    | match goal with
      | |- Panicked _ = Returned _ → _ =>
          let H := fresh in intros H; discriminate H
      end ].

(** C9.  When [GetCreateWorkspaceDtoFromFlags] returns a DTO, the
    settings for no builder or a custom image win over the devcontainer
    settings: if the builder flag is NONE, or the custom image or its
    user is not empty, the [BuildConfig] of the DTO is nil, whatever the
    devcontainer path.  A [BuildConfig] is returned only when none of
    the three holds, and it is then the one the devcontainer flags
    give. *)
Theorem GetCreateWorkspaceDtoFromFlags_BuildConfig
    (DEVCONTAINER NONE DEVCONTAINER_FILEPATH : string)
    (MapKeyValue : list string → gmap string string * option error)
    (flags : WorkspaceConfigurationFlags) (dto : CreateWorkspaceDTO) :
  GetCreateWorkspaceDtoFromFlags DEVCONTAINER NONE DEVCONTAINER_FILEPATH
    MapKeyValue flags = Returned (inl dto) →
  let overridden :=
    Builder flags = Some NONE
    ∨ (∃ image, CustomImage flags = Some image ∧ image ≠ EmptyString)
    ∨ (∃ user, CustomImageUser flags = Some user ∧ user ≠ EmptyString) in
  (overridden → BuildConfig_ dto = None) ∧
  (∀ buildConfig, BuildConfig_ dto = Some buildConfig → ¬ overridden) ∧
  (¬ overridden →
     ∃ builder path,
       Builder flags = Some builder ∧ DevcontainerPath flags = Some path ∧
       BuildConfig_ dto =
         Some {| Devcontainer :=
                   if String.eqb builder DEVCONTAINER
                      || negb (String.eqb path EmptyString)
                   then Some {| FilePath :=
                                  if String.eqb path EmptyString
                                  then DEVCONTAINER_FILEPATH else path |}
                   else None |}).
Proof.
  intros Hret overridden; subst overridden.
  unfold GetCreateWorkspaceDtoFromFlags in Hret.
  destruct flags as [b ci ciu dp ev lb gp]; simpl in *.
  revert Hret. crunch.
  all: intros Hd; first [discriminate Hd | injection Hd as <-]; simpl.
  all: split; [|split].
  all: try (intros _; reflexivity).
  all: try (intros ? ?; discriminate).
  all: try solve
    [ eqb_facts; intros [H | [(x & H & Hx) | (x & H & Hx)]];
      injection H as H; congruence
    | eqb_facts; intros bc _ [H | [(x & H & Hx) | (x & H & Hx)]];
      injection H as H; congruence ].
  all: intros Hno.
  all: first
    [ eexists _, _; split; [reflexivity|]; split; [reflexivity|];
      repeat match goal with
        | H : String.eqb ?a ?b = _ |- context [String.eqb ?a ?b] => rewrite H
        end; reflexivity
    | exfalso; eqb_facts; apply Hno;
      first
        [ left; congruence
        | right; left; eexists; split; [reflexivity | congruence]
        | right; right; eexists; split; [reflexivity | congruence] ] ].
Qed.

(** The theorem at flags that name both a devcontainer path and no
    builder: the DTO comes back without a [BuildConfig]. *)
Lemma GetCreateWorkspaceDtoFromFlags_BuildConfig_witness :
  let flags := {|
    Builder := Some "none"; CustomImage := Some EmptyString;
    CustomImageUser := Some EmptyString;
    DevcontainerPath := Some ".devcontainer/custom.json";
    FlagEnvVars := None; FlagLabels := None; GitProviderConfig := None |} in
  ∃ dto,
    GetCreateWorkspaceDtoFromFlags "devcontainer" "none"
      ".devcontainer/devcontainer.json" (λ _, (∅, None)) flags
    = Returned (inl dto)
    ∧ BuildConfig_ dto = None.
Proof.
  intros flags. eexists. split; [reflexivity|].
  apply (GetCreateWorkspaceDtoFromFlags_BuildConfig "devcontainer" "none"
           ".devcontainer/devcontainer.json" (λ _, (∅, None)) flags _
           eq_refl).
  left. reflexivity.
Defined.

End dto_from_flags.

(** ** The database connection *)
Section sqlite_connection.
Import db.

Lemma SetMaxOpenConns_new (heap : list gormDB) (o : gormDB) (n : Z) :
  SetMaxOpenConns (length heap) n (heap ++ [o]) !! length heap
  = Some {| dsn := dsn o; MaxOpenConns := n |}.
Proof.
  unfold SetMaxOpenConns.
  rewrite lookup_app_r, Nat.sub_diag by lia. simpl.
  apply list_lookup_insert_eq. rewrite length_app. simpl. lia.
Qed.

(** Once [_db] is set, a call returns it and changes nothing, whatever
    the path. *)
Lemma GetSQLiteConnection_cached (drv : Driver) (p : Process) (h : nat) :
  _db p = Some h →
  ∀ dbPath, GetSQLiteConnection drv dbPath p = (Returned h, p).
Proof. intros Hdb dbPath. unfold GetSQLiteConnection. by rewrite Hdb. Qed.

Lemma calls_cached (drv : Driver) (p : Process) (h : nat) :
  _db p = Some h →
  ∀ paths, calls drv paths p = (replicate (length paths) h, p).
Proof.
  intros Hdb paths. induction paths as [|dbPath rest IH]; simpl; [done|].
  rewrite (GetSQLiteConnection_cached drv p h Hdb), IH. done.
Qed.

(** C10.  [GetSQLiteConnection] memoizes its handle in the package
    variable: a first call (no handle cached yet) that returns has opened
    the database at the path it was given, with one connection at most,
    and cached the handle it returns; every later call, whatever path it
    is given, returns that same handle and changes nothing, so any run
    of later calls returns it every time. *)
Theorem GetSQLiteConnection_singleton
    (drv : Driver) (dbPath : string) (p p' : Process) (h : nat) :
  _db p = None →
  GetSQLiteConnection drv dbPath p = (Returned h, p') →
  heap p' !! h = Some {| dsn := dbPath; MaxOpenConns := 1 |} ∧
  heap p !! h = None ∧
  _db p' = Some h ∧
  (∀ dbPath', GetSQLiteConnection drv dbPath' p' = (Returned h, p')) ∧
  (∀ paths, calls drv paths p' = (replicate (length paths) h, p')).
Proof.
  intros Hnil Hcall. unfold GetSQLiteConnection in Hcall.
  rewrite Hnil in Hcall. simpl in Hcall.
  destruct (gorm_Open_fails drv dbPath); [discriminate|].
  destruct (DB_fails drv dbPath); [discriminate|].
  injection Hcall as <- <-. simpl.
  split; [apply SetMaxOpenConns_new|].
  split; [by apply lookup_ge_None_2|].
  split; [done|].
  split; [by apply GetSQLiteConnection_cached | by apply calls_cached].
Qed.

(** The theorem at a fresh process: the handle of the first path is
    returned for the second path too. *)
Lemma GetSQLiteConnection_singleton_witness :
  let drv := {| gorm_Open_fails := λ _, false; DB_fails := λ _, false |} in
  let p := {| _db := None; heap := []; debug_log := [] |} in
  ∃ p', GetSQLiteConnection drv "/data/a.db" p = (Returned 0, p') ∧
        GetSQLiteConnection drv "/data/b.db" p' = (Returned 0, p') ∧
        heap p' !! 0 = Some {| dsn := "/data/a.db"; MaxOpenConns := 1 |}.
Proof.
  intros drv p. eexists. split; [reflexivity|].
  destruct (GetSQLiteConnection_singleton drv "/data/a.db" p _ 0
              eq_refl eq_refl) as (Hheap & _ & _ & Hlater & _).
  split; [apply Hlater | exact Hheap].
Defined.

End sqlite_connection.

(** ** UID and GID reconciliation *)
Section uid_gid.
Import docker.














End uid_gid.

(** ** Reconciliation that changes nothing *)
Section uid_gid_no_change.
Import docker.





End uid_gid_no_change.

(** ** Pulls and builder dispatch of [CreateWorkspace] *)
Section create_workspace.
Import docker.

Lemma pulls_app (evs evs' : list Event) :
  pulls (evs ++ evs') = (pulls evs ++ pulls evs')%list.
Proof. apply omap_app. Qed.

Ltac pulls_norm :=
  repeat progress (unfold emit; simpl; rewrite ?pulls_app; simpl;
                   rewrite ?app_nil_r).

Lemma pulls_ExecSync (d : Deps) (id user : string) (cmd : command)
    (env : list (string * string)) (w : World) :
  pulls (events (ExecSync d id user cmd env w).2) = pulls (events w).
Proof.
  unfold ExecSync.
  destruct (ExecSync_err d user cmd); [|destruct cmd]; simpl;
    try destruct (UPDATE_UID_GID_SCRIPT _ _ _ _); by pulls_norm.
Qed.

Lemma pulls_updateContainerUserUidGid (d : Deps) (id : string)
    (opts : CreateWorkspaceOptions) (w : World) :
  pulls (events (updateContainerUserUidGid d id opts w).2) = pulls (events w).
Proof.
  unfold updateContainerUserUidGid.
  destruct (user_Current d) as [[cu cg] [err|]]; [done|].
  destruct (match opt_SshClient opts with
            | Some sshClient => ssh_GetUserUidGid sshClient
            | None => (cu, cg, None)
            end) as [[newUid newGid] [err|]]; [done|].
  destruct (negb _); [|done].
  pose proof (pulls_ExecSync d id "root" sh_c_UPDATE_UID_GID_SCRIPT
                [("REMOTE_USER",
                  if String.eqb newUid "0" && String.eqb newGid "0"
                  then "root" else "daytona");
                 ("NEW_UID", newUid); ("NEW_GID", newGid)] w) as H.
  destruct (ExecSync _ _ _ _ _ _) as [[code [err|]] w1]; simpl in *; done.
Qed.

(** The clone pulls no image. *)
Lemma pulls_cloneWorkspaceRepository (d : Deps)
    (opts : CreateWorkspaceOptions) (w : World) :
  pulls (events (cloneWorkspaceRepository d opts w).2) = pulls (events w).
Proof.
  unfold cloneWorkspaceRepository.
  set (mk := match opt_SshClient opts with
             | Some sshClient => _
             | None => _
             end).
  assert (Hmk : pulls (events mk.2) = pulls (events w)).
  { subst mk. destruct (opt_SshClient opts); by pulls_norm. }
  destruct mk as [[err|] w1]; simpl in *; [done|].
  destruct (ContainerCreate d _ _) as [c_ID [err|]]; simpl.
  { by pulls_norm. }
  destruct (ContainerStart d c_ID) as [err|]; simpl.
  { by pulls_norm. }
  set (w2 := emit (ev_ContainerStart c_ID) (emit _ w1)).
  assert (Hw2 : pulls (events w2) = pulls (events w)).
  { subst w2. by pulls_norm. }
  set (up := if negb (String.eqb (GOOS d) "windows")
             then updateContainerUserUidGid d c_ID opts w2
             else ("daytona", None, w2)).
  assert (Hup : pulls (events up.2) = pulls (events w)).
  { subst up. destruct (negb _); simpl; [|done].
    by rewrite pulls_updateContainerUserUidGid. }
  destruct up as [[containerUser uerr] w3]; simpl in *.
  pose proof (pulls_ExecSync d c_ID containerUser
                (argv ["sh"; "-c";
                       String.concat " "
                         (CloneRepositoryCmd d
                            ("/workdir/" +:+ WorkspaceFolderName d (opt_Workspace opts))
                            (ws_Repository (opt_Workspace opts))
                            match opt_Gpc opts with
                            | Some gpc => Some (Username gpc, Token gpc)
                            | None => None
                            end)]) [] w3) as Hex.
  destruct (ExecSync _ _ _ _ _ _) as [[code [err|]] w4]; simpl in *.
  - pulls_norm. congruence.
  - destruct (negb _); pulls_norm; congruence.
Qed.

(** The image path pulls the image of the workspace unless the cache
    holds it. *)
Lemma pulls_createWorkspaceFromImage (d : Deps) (opts : CreateWorkspaceOptions)
    (pulledImages : gmap string bool) (mount : bool) (w : World) :
  pulls (events (createWorkspaceFromImage d opts pulledImages mount w).2)
  = (pulls (events w)
     ++ if default false (pulledImages !! ws_Image (opt_Workspace opts))
        then [] else [ws_Image (opt_Workspace opts)])%list.
Proof.
  unfold createWorkspaceFromImage, PullImage.
  destruct (default false _); simpl.
  - by pulls_norm.
  - destruct (PullImage_err d _); by pulls_norm.
Qed.

(** The pulls of one run: the builder image when there is a build
    configuration, then the image of the workspace if the image path is
    reached with another image; the image of the workspace alone when
    there is no build configuration. *)
Lemma pulls_CreateWorkspace (d : Deps) (opts : CreateWorkspaceOptions)
    (w : World) :
  ∃ run,
    pulls (events (CreateWorkspace d opts w).2)
    = (pulls (events w) ++ run)%list ∧
    match ws_BuildConfig (opt_Workspace opts) with
    | None => run = [ws_Image (opt_Workspace opts)]
    | Some _ =>
        run = [opt_BuilderImage opts]
        ∨ (run = [opt_BuilderImage opts; ws_Image (opt_Workspace opts)]
           ∧ ws_Image (opt_Workspace opts) ≠ opt_BuilderImage opts)
    end.
Proof.
  unfold CreateWorkspace.
  destruct (ws_BuildConfig (opt_Workspace opts)) as [buildConfig|].
  - unfold PullImage at 1.
    set (w1 := emit _ w).
    assert (Hw1 : pulls (events w1)
                  = (pulls (events w) ++ [opt_BuilderImage opts])%list)
      by (subst w1; by pulls_norm).
    destruct (PullImage_err d (opt_BuilderImage opts)) as [err|].
    { exists [opt_BuilderImage opts]. split; [done | by left]. }
    pose proof (pulls_cloneWorkspaceRepository d opts w1) as Hclone.
    destruct (cloneWorkspaceRepository d opts w1) as [[err|] w2]; simpl in *.
    { exists [opt_BuilderImage opts].
      split; [by rewrite Hclone, Hw1 | by left]. }
    destruct (DetectWorkspaceBuilderType d _ _ _) as [[| |name] [err|]];
      simpl;
      try (exists [opt_BuilderImage opts];
           split; [by rewrite Hclone, Hw1 | by left]).
    + exists [opt_BuilderImage opts]. split; [|by left].
      rewrite pulls_app, Hclone, Hw1. simpl. by rewrite app_nil_r.
    + rewrite pulls_createWorkspaceFromImage, Hclone, Hw1.
      rewrite lookup_insert. case_decide as Heq; simpl.
      * exists [opt_BuilderImage opts].
        split; [by rewrite app_nil_r | by left].
      * rewrite lookup_empty. simpl.
        exists [opt_BuilderImage opts; ws_Image (opt_Workspace opts)].
        split; [by rewrite <- app_assoc|].
        right. split; [done|]. congruence.
  - rewrite pulls_createWorkspaceFromImage, lookup_empty. simpl.
    by exists [ws_Image (opt_Workspace opts)].
Qed.

(** C4.  Within one run of [CreateWorkspace] no image reference is
    pulled twice: the pulls the run adds to those made before are free
    of duplicates.  With a build configuration and a workspace image
    that is the builder image, both the builder step and the image path
    ask for the same reference, and the run pulls it once.  The cache
    does not outlive the run: a second run pulls the reference again. *)
Theorem CreateWorkspace_pulls_once (d : Deps) (opts : CreateWorkspaceOptions)
    (w : World) :
  ∃ run,
    pulls (events (CreateWorkspace d opts w).2)
    = (pulls (events w) ++ run)%list ∧
    NoDup run ∧
    (is_Some (ws_BuildConfig (opt_Workspace opts)) →
     ws_Image (opt_Workspace opts) = opt_BuilderImage opts →
     run = [opt_BuilderImage opts] ∧
     pulls (events (CreateWorkspace d opts (CreateWorkspace d opts w).2).2)
     = (pulls (events w)
        ++ [opt_BuilderImage opts; opt_BuilderImage opts])%list).
Proof.
  destruct (pulls_CreateWorkspace d opts w) as (run & Hrun & Hcases).
  exists run. split; [exact Hrun|]. split.
  - destruct (ws_BuildConfig (opt_Workspace opts)).
    + destruct Hcases as [->|[-> Hne]].
      * apply NoDup_singleton.
      * apply NoDup_cons. split; [|apply NoDup_singleton].
        intros Hin. apply list_elem_of_singleton in Hin. congruence.
    + subst run. apply NoDup_singleton.
  - intros [buildConfig Hbc] Hsame.
    destruct (pulls_CreateWorkspace d opts (CreateWorkspace d opts w).2)
      as (run2 & Hrun2 & Hcases2).
    rewrite Hbc in Hcases, Hcases2.
    destruct Hcases as [->|[_ Hne]]; [|congruence].
    destruct Hcases2 as [->|[_ Hne]]; [|congruence].
    split; [done|]. by rewrite Hrun2, Hrun, <- app_assoc.
Qed.

(** The theorem on the sample workspace, whose image is the builder
    image, on a host where detection answers [Image]: one pull in a
    run, two in two runs. *)
Lemma CreateWorkspace_pulls_once_witness :
  let d := samples.host "1000" "1000" BuilderTypeImage in
  let w := samples.world samples.daytona_first in
  pulls (events (CreateWorkspace d samples.opts w).2)
  = ["daytonaio/workspace-project:latest"]
  ∧ pulls (events (CreateWorkspace d samples.opts
                     (CreateWorkspace d samples.opts w).2).2)
    = ["daytonaio/workspace-project:latest";
       "daytonaio/workspace-project:latest"].
Proof.
  intros d w.
  destruct (CreateWorkspace_pulls_once d samples.opts w)
    as (run & Hrun & _ & Hsame).
  destruct Hsame as [-> Htwo]; [by eexists | reflexivity |].
  split; [exact Hrun | exact Htwo].
Defined.

(** C5.  For a workspace with a build configuration, once the pull of
    the builder image and the clone have succeeded, the builder type
    detected on the cloned tree decides: [Devcontainer] takes the
    devcontainer path (as a prebuild), [Image] takes the image path (the
    workspace directory mounted, the builder image in the cache), and
    any other type makes [CreateWorkspace] fail with the error of the
    unknown builder type, nothing more being done.  An error of the
    detection itself is returned as it is. *)
Theorem CreateWorkspace_builder_dispatch (d : Deps)
    (opts : CreateWorkspaceOptions) (w w1 w2 : World)
    (buildConfig : BuildConfig) :
  ws_BuildConfig (opt_Workspace opts) = Some buildConfig →
  PullImage d (opt_BuilderImage opts)
    (FindContainerRegistryByImageName d (opt_BuilderImage opts)) w
  = (None, w1) →
  cloneWorkspaceRepository d opts w1 = (None, w2) →
  match DetectWorkspaceBuilderType d buildConfig (opt_WorkspaceDir opts)
          (opt_SshClient opts) with
  | (_, Some err) => CreateWorkspace d opts w = (Some err, w2)
  | (BuilderTypeDevcontainer, None) =>
      CreateWorkspace d opts w
      = CreateFromDevcontainer d (toCreateDevcontainerOptions d opts true) w2
      ∧ (CreateWorkspace d opts w).1
        = CreateFromDevcontainer_err d (toCreateDevcontainerOptions d opts true)
      ∧ events (CreateWorkspace d opts w).2
        = (events w2
           ++ [ev_CreateFromDevcontainer
                 (toCreateDevcontainerOptions d opts true)])%list
  | (BuilderTypeImage, None) =>
      CreateWorkspace d opts w
      = createWorkspaceFromImage d opts
          (<[opt_BuilderImage opts := true]> ∅) true w2
  | (BuilderTypeOther name, None) =>
      CreateWorkspace d opts w
      = (Some ("unknown builder type: " +:+ name), w2)
  end.
Proof.
  intros Hbc Hpull Hclone. unfold CreateWorkspace.
  rewrite Hbc, Hpull, Hclone.
  destruct (DetectWorkspaceBuilderType d _ _ _) as [[| |name] [err|]]; done.
Qed.

(** The theorem on the sample workspace, on a host where detection
    answers a type that is neither of the two. *)
Lemma CreateWorkspace_builder_dispatch_witness :
  ∃ w2,
    (CreateWorkspace (samples.host "1000" "1000" (BuilderTypeOther "dockerfile"))
       samples.opts (samples.world samples.daytona_first))
    = (Some "unknown builder type: dockerfile", w2).
Proof.
  eexists.
  exact (CreateWorkspace_builder_dispatch
           (samples.host "1000" "1000" (BuilderTypeOther "dockerfile"))
           samples.opts (samples.world samples.daytona_first) _ _
           {| Devcontainer := None |} eq_refl eq_refl eq_refl).
Defined.

End create_workspace.

(** ** The workspace service *)
Section workspace_service.
Import workspaces.

(** What [Find] answers, by the row of the Store. *)
Lemma Find_cases (id : string) (s : Service) :
  match Store s !! id with
  | None => Find id s = inl ErrWorkspaceNotFound
  | Some ws =>
      if Deleted ws then Find id s = inl ErrWorkspaceDeleted
      else Find id s = inr ws
  end.
Proof. unfold Find. destruct (Store s !! id) as [ws|]; [|done]. by destruct (Deleted ws). Qed.

(** A soft delete that succeeds leaves the row, marked deleted. *)
Lemma Delete_marks (cfg : WorkspaceServiceConfig) (id : string)
    (s s' : Service) :
  Delete cfg id s = (None, s') →
  ∃ ws, Store s !! id = Some ws ∧ Store s' !! id = Some (mark_deleted ws).
Proof.
  unfold Delete. intros H.
  destruct (Store s !! id) as [ws|] eqn:Hrow; [|discriminate].
  destruct (DeleteApiKey cfg (Id ws)); [discriminate|].
  destruct (CreateJob cfg _ _ _); [discriminate|].
  injection H as <-. exists ws. split; [done|]. simpl.
  apply lookup_insert_eq.
Qed.

(** C6.  [Find] tells a soft-deleted workspace from one that never
    existed: it answers [Deleted] exactly when the Store holds the row
    marked deleted, and [NotFound] exactly when the Store holds no row
    for the id; the two errors are different, so neither case is ever
    reported as the other.  In particular [Find] answers [Deleted] after
    a [Delete] that succeeded, and [NotFound] in a Store that never held
    the id. *)
Theorem Find_Deleted_or_NotFound (s : Service) (id : string) :
  (Find id s = inl ErrWorkspaceDeleted
   ↔ ∃ ws, Store s !! id = Some ws ∧ Deleted ws = true) ∧
  (Find id s = inl ErrWorkspaceNotFound ↔ Store s !! id = None) ∧
  ErrWorkspaceDeleted ≠ ErrWorkspaceNotFound ∧
  (∀ cfg s0, Delete cfg id s0 = (None, s) →
     Find id s = inl ErrWorkspaceDeleted) ∧
  Find id {| Store := ∅; Ledger := Ledger s |} = inl ErrWorkspaceNotFound.
Proof.
  pose proof (Find_cases id s) as Hfind.
  split; [|split; [|split; [|split]]].
  - destruct (Store s !! id) as [ws|] eqn:Hrow.
    + destruct (Deleted ws) eqn:Hdel; rewrite Hfind.
      * split; [intros _; by exists ws | done].
      * split; [discriminate|]. intros (ws' & Hws & Hdel'). congruence.
    + rewrite Hfind. split; [discriminate|]. by intros (ws & Hws & _).
  - destruct (Store s !! id) as [ws|] eqn:Hrow.
    + destruct (Deleted ws); rewrite Hfind; split; discriminate.
    + by rewrite Hfind.
  - discriminate.
  - intros cfg s0 Hdel. apply Delete_marks in Hdel as (ws & _ & Hrow).
    unfold Find. by rewrite Hrow.
  - unfold Find. simpl. by rewrite lookup_empty.
Qed.

(** The theorem on the Store of the test, after a [Delete] of its
    workspace. *)
Lemma Find_Deleted_or_NotFound_witness :
  Find "123" (Delete samples.collaborators "123" samples.service).2
  = inl ErrWorkspaceDeleted
  ∧ Find "invalid-id" (Delete samples.collaborators "123" samples.service).2
    = inl ErrWorkspaceNotFound.
Proof.
  destruct (Find_Deleted_or_NotFound
              (Delete samples.collaborators "123" samples.service).2 "123")
    as (_ & _ & _ & Hdeleted & _).
  destruct (Find_Deleted_or_NotFound
              (Delete samples.collaborators "123" samples.service).2
              "invalid-id")
    as (_ & Hnotfound & _).
  split.
  - exact (Hdeleted samples.collaborators samples.service eq_refl).
  - apply Hnotfound. reflexivity.
Defined.



End workspace_service.

(** ** Sanitized workspace names *)
Section sanitized_name.
Import creation_data_rest.

Lemma get_ReplaceAll (s : string) (old new : ascii) (n : nat) :
  get n (ReplaceAll s old new)
  = option_map (λ c, if Ascii.eqb c old then new else c) (get n s).
Proof.
  revert n. induction s as [|c s IH]; intros n; simpl; [done|].
  destruct n; simpl; [done | apply IH].
Qed.

Lemma ReplaceAll_length (s : string) (old new : ascii) :
  String.length (ReplaceAll s old new) = String.length s.
Proof. induction s as [|c s IH]; simpl; [done | by rewrite IH]. Qed.

Lemma ReplaceAll_absent (s : string) (old new : ascii) :
  (∀ n, get n s ≠ Some old) → ReplaceAll s old new = s.
Proof.
  induction s as [|c s IH]; intros H; simpl; [done|].
  destruct (Ascii.eqb_spec c old) as [->|Hne].
  - by specialize (H 0%nat).
  - f_equal. apply IH. intros n. apply (H (S n)).
Qed.

(** Text without a percent sign passes the check, and its plus signs are
    counted. *)
Lemma count_escapes_no_percent (s : string) :
  (∀ n, get n s ≠ Some "%"%char) →
  ∃ hasPlus,
    count_escapes s = inl (0%nat, hasPlus) ∧
    (hasPlus = false → ∀ n, get n s ≠ Some "+"%char).
Proof.
  induction s as [|c s IH]; intros H; simpl.
  - exists false. split; [done|]. intros _ n. by destruct n.
  - destruct (Ascii.eqb_spec c "%") as [->|Hne]; [by specialize (H 0%nat)|].
    destruct IH as (hasPlus & -> & Hplus); [intros n; apply (H (S n))|].
    eexists. split; [reflexivity|].
    intros Hfalse n. apply orb_false_iff in Hfalse as [Hc Hp].
    destruct n; simpl.
    + apply Ascii.eqb_neq in Hc. congruence.
    + by apply Hplus.
Qed.

Lemma write_unescaped_no_percent (s : string) :
  (∀ n, get n s ≠ Some "%"%char) →
  write_unescaped s = ReplaceAll s "+" " ".
Proof.
  induction s as [|c s IH]; intros H; simpl; [done|].
  destruct (Ascii.eqb_spec c "%") as [->|Hne]; [by specialize (H 0%nat)|].
  rewrite IH by (intros n; apply (H (S n))).
  by destruct (Ascii.eqb c "+").
Qed.

(** X1.  A name [GetSanitizedWorkspaceName] returns holds no blank,
    whether the blank was typed, written as a plus sign or escaped; and
    when it returns an error the name it returns is empty. *)
Theorem GetSanitizedWorkspaceName_no_blank (workspaceName : string) :
  match GetSanitizedWorkspaceName workspaceName with
  | (name, None) => ∀ n, get n name ≠ Some " "%char
  | (name, Some _) => name = EmptyString
  end.
Proof.
  unfold GetSanitizedWorkspaceName.
  destruct (QueryUnescape workspaceName) as [decoded [err|]]; [done|].
  intros n. rewrite get_ReplaceAll.
  destruct (get n decoded) as [c|]; simpl; [|done].
  destruct (Ascii.eqb_spec c " ") as [->|Hne]; [discriminate | congruence].
Qed.

(** X2.  On a name without a percent sign [GetSanitizedWorkspaceName]
    never fails: it returns the name with every plus sign and every blank
    turned into a dash, so a name of the same length, and the name itself
    when it holds neither. *)
Theorem GetSanitizedWorkspaceName_no_percent (workspaceName : string) :
  (∀ n, get n workspaceName ≠ Some "%"%char) →
  GetSanitizedWorkspaceName workspaceName
  = (ReplaceAll (ReplaceAll workspaceName "+" " ") " " "-", None)
  ∧ String.length (GetSanitizedWorkspaceName workspaceName).1
    = String.length workspaceName
  ∧ ((∀ n, get n workspaceName ≠ Some "+"%char) →
     (∀ n, get n workspaceName ≠ Some " "%char) →
     GetSanitizedWorkspaceName workspaceName = (workspaceName, None)).
Proof.
  intros Hpct.
  assert (Hrun : GetSanitizedWorkspaceName workspaceName
                 = (ReplaceAll (ReplaceAll workspaceName "+" " ") " " "-", None)).
  { unfold GetSanitizedWorkspaceName, QueryUnescape.
    destruct (count_escapes_no_percent _ Hpct) as (hasPlus & -> & Hplus).
    simpl. destruct hasPlus; simpl.
    - by rewrite write_unescaped_no_percent.
    - by rewrite (ReplaceAll_absent workspaceName "+" " ") by auto. }
  rewrite Hrun. simpl. split; [done|]. split.
  - by rewrite !ReplaceAll_length.
  - intros Hplus Hblank.
    by rewrite (ReplaceAll_absent workspaceName "+" " " Hplus),
      (ReplaceAll_absent workspaceName " " "-" Hblank).
Qed.

Lemma GetSanitizedWorkspaceName_no_percent_witness :
  (∀ n, get n "my+web app" ≠ Some "%"%char) ∧
  GetSanitizedWorkspaceName "my+web app" = ("my-web-app", None).
Proof.
  assert (H : ∀ n, get n "my+web app" ≠ Some "%"%char).
  { intros n. do 11 (destruct n as [|n]; [discriminate|]). discriminate. }
  split; [exact H|].
  exact (proj1 (GetSanitizedWorkspaceName_no_percent "my+web app" H)).
Defined.

(** X3.  A percent sign that is not followed by two hexadecimal digits
    makes [GetSanitizedWorkspaceName] fail: after a prefix without percent
    sign, the error carries the text from that percent sign on, three
    bytes at most, and no name is returned. *)
Theorem GetSanitizedWorkspaceName_bad_escape (before after : string) :
  (∀ n, get n before ≠ Some "%"%char) →
  match after with
  | String a (String b _) => ishex a && ishex b = false
  | _ => True
  end →
  GetSanitizedWorkspaceName (before +:+ String "%" after)
  = (EmptyString, Some (substring 0 3 (String "%" after))).
Proof.
  intros Hpct Hbad.
  assert (Hcount : count_escapes (before +:+ String "%" after)
                   = inr (substring 0 3 (String "%" after))).
  { induction before as [|c s IH].
    - change (EmptyString +:+ String "%" after) with (String "%" after).
      unfold count_escapes; fold count_escapes. simpl Ascii.eqb. cbv iota.
      destruct after as [|a [|b rest]]; try reflexivity.
      by rewrite Hbad.
    - change (String c s +:+ String "%" after)
        with (String c (s +:+ String "%" after)).
      unfold count_escapes; fold count_escapes.
      destruct (Ascii.eqb_spec c "%") as [->|Hne]; [by specialize (Hpct 0%nat)|].
      rewrite IH; [done|]. intros n. apply (Hpct (S n)). }
  unfold GetSanitizedWorkspaceName, QueryUnescape. by rewrite Hcount.
Qed.

Lemma GetSanitizedWorkspaceName_bad_escape_witness :
  GetSanitizedWorkspaceName "50%off" = (EmptyString, Some "%of").
Proof.
  apply (GetSanitizedWorkspaceName_bad_escape "50" "off").
  - intros n. do 2 (destruct n as [|n]; [discriminate|]). discriminate.
  - reflexivity.
Defined.

End sanitized_name.

(** ** Git provider configuration from a flag *)
Section git_provider_flag.
Import creation_data_rest.

(** What the loop finds is the id of the first configuration whose id or
    alias is the flag. *)
Lemma find_config_Some (flag id : string) (configs : list GitProvider) :
  find_config flag configs = Some id ↔
  ∃ before config after,
    configs = (before ++ config :: after)%list ∧
    gp_Id config = id ∧
    (gp_Id config = flag ∨ gp_Alias config = flag) ∧
    Forall (λ c, gp_Id c ≠ flag ∧ gp_Alias c ≠ flag) before.
Proof.
  induction configs as [|c rest IH]; simpl.
  - split; [discriminate|]. intros (before & config & after & H & _).
    by destruct before.
  - destruct (String.eqb_spec (gp_Id c) flag) as [Hid|Hid];
      [|destruct (String.eqb_spec (gp_Alias c) flag) as [Hal|Hal]].
    + split.
      * intros [= <-]. exists [], c, rest. by auto.
      * intros ([|c' before] & config & after & [= -> ->] & <- & _ & Hnone);
          [done|].
        apply Forall_cons in Hnone as [[? _] _]. contradiction.
    + split.
      * intros [= <-]. exists [], c, rest. by auto.
      * intros ([|c' before] & config & after & [= -> ->] & <- & _ & Hnone);
          [done|].
        apply Forall_cons in Hnone as [[_ ?] _]. contradiction.
    + rewrite IH. split.
      * intros (before & config & after & -> & Hcfg & Hmatch & Hnone).
        exists (c :: before), config, after. split; [done|].
        split; [done|]. split; [done|]. by apply Forall_cons.
      * intros ([|c' before] & config & after & [= -> ->] & Hcfg & Hmatch & Hnone).
        -- destruct Hmatch; contradiction.
        -- apply Forall_cons in Hnone as [_ Hnone].
           by exists before, config, after.
Qed.

Lemma find_config_None (flag : string) (configs : list GitProvider) :
  find_config flag configs = None ↔
  Forall (λ c, gp_Id c ≠ flag ∧ gp_Alias c ≠ flag) configs.
Proof.
  induction configs as [|c rest IH]; simpl; [by split|].
  destruct (String.eqb_spec (gp_Id c) flag) as [Hid|Hid];
    [|destruct (String.eqb_spec (gp_Alias c) flag) as [Hal|Hal]].
  - split; [discriminate|]. intros [[? _] _]%Forall_cons. contradiction.
  - split; [discriminate|]. intros [[_ ?] _]%Forall_cons. contradiction.
  - rewrite IH. split; [intros H; by apply Forall_cons|].
    by intros [_ ?]%Forall_cons.
Qed.

(** X4.  When [GetGitProviderConfigIdFromFlag] answers an id for a flag
    that is set, the API was asked once and listed a configuration with
    that id whose id or alias is the flag, and no configuration listed
    before it has the flag as id or alias: the first match in the order of
    the list wins, also when a later configuration has the flag as its
    very id. *)
Theorem GetGitProviderConfigIdFromFlag_first_match (apiClient : ApiClient)
    (flag id : string) (requests : nat) :
  flag ≠ EmptyString →
  GetGitProviderConfigIdFromFlag apiClient (Some flag)
  = (Some id, None, requests) →
  requests = 1%nat ∧
  (ListGitProviders apiClient).2 = None ∧
  ∃ before config after,
    (ListGitProviders apiClient).1 = (before ++ config :: after)%list ∧
    gp_Id config = id ∧
    (gp_Id config = flag ∨ gp_Alias config = flag) ∧
    Forall (λ c, gp_Id c ≠ flag ∧ gp_Alias c ≠ flag) before.
Proof.
  intros Hne. unfold GetGitProviderConfigIdFromFlag.
  apply String.eqb_neq in Hne. rewrite Hne.
  destruct (ListGitProviders apiClient) as [configs [err|]]; [discriminate|].
  destruct (find_config flag configs) as [found|] eqn:Hfind; [|discriminate].
  intros [= -> <-]. split; [done|]. split; [done|].
  by apply find_config_Some.
Qed.

(** The theorem on a list where the first configuration has the flag as
    alias and the second has it as id: the id of the first is answered. *)
Lemma GetGitProviderConfigIdFromFlag_first_match_witness :
  let apiClient := {|
    ListGitProviders :=
      ([{| gp_Id := "github-1"; gp_Alias := "work" |};
        {| gp_Id := "work"; gp_Alias := "gitlab" |}], None);
    HandleErrorResponse := λ err, err |} in
  GetGitProviderConfigIdFromFlag apiClient (Some "work")
  = (Some "github-1", None, 1%nat)
  ∧ ∃ before config after,
      (ListGitProviders apiClient).1 = (before ++ config :: after)%list ∧
      gp_Id config = "github-1" ∧
      (gp_Id config = "work" ∨ gp_Alias config = "work") ∧
      Forall (λ c, gp_Id c ≠ "work" ∧ gp_Alias c ≠ "work") before.
Proof.
  intros apiClient. split; [reflexivity|].
  apply (GetGitProviderConfigIdFromFlag_first_match apiClient "work"
           "github-1" 1%nat); [discriminate | reflexivity].
Defined.

(** X5.  For a flag that is set and a list the API returns without
    error, [GetGitProviderConfigIdFromFlag] fails with the not-found error
    exactly when no listed configuration has the flag as id or alias;
    otherwise it answers an id and no error. *)
Theorem GetGitProviderConfigIdFromFlag_not_found (apiClient : ApiClient)
    (flag : string) (configs : list GitProvider) :
  flag ≠ EmptyString →
  ListGitProviders apiClient = (configs, None) →
  (Forall (λ c, gp_Id c ≠ flag ∧ gp_Alias c ≠ flag) configs →
   GetGitProviderConfigIdFromFlag apiClient (Some flag)
   = (None, Some ("git provider config '" +:+ flag +:+ "' not found"), 1%nat)) ∧
  (¬ Forall (λ c, gp_Id c ≠ flag ∧ gp_Alias c ≠ flag) configs →
   ∃ id, GetGitProviderConfigIdFromFlag apiClient (Some flag)
         = (Some id, None, 1%nat)).
Proof.
  intros Hne Hlist. unfold GetGitProviderConfigIdFromFlag.
  apply String.eqb_neq in Hne. rewrite Hne, Hlist.
  pose proof (find_config_None flag configs) as Hnone.
  destruct (find_config flag configs) as [found|].
  - split.
    + intros Hall. apply Hnone in Hall. discriminate.
    + intros _. by exists found.
  - split; [done|]. intros Hnot. exfalso. apply Hnot. by apply Hnone.
Qed.

(** The theorem on a list of one configuration and a flag it does not
    have. *)
Lemma GetGitProviderConfigIdFromFlag_not_found_witness :
  let apiClient := {|
    ListGitProviders := ([{| gp_Id := "github-1"; gp_Alias := "work" |}], None);
    HandleErrorResponse := λ err, err |} in
  GetGitProviderConfigIdFromFlag apiClient (Some "home")
  = (None, Some "git provider config 'home' not found", 1%nat).
Proof.
  intros apiClient.
  assert (Hflag : "home" ≠ EmptyString) by discriminate.
  destruct (GetGitProviderConfigIdFromFlag_not_found apiClient "home"
              [{| gp_Id := "github-1"; gp_Alias := "work" |}] Hflag eq_refl)
    as [Hnone _].
  apply Hnone.
  apply Forall_cons. split; [split; discriminate | by apply Forall_nil].
Defined.

End git_provider_flag.

(** ** More on the DTO built from flags *)
Section dto_from_flags_rest.
Import creation_data.

Ltac run_flags :=
  repeat first
    [ progress simpl
    | match goal with
      | H : String.eqb ?a ?b = _ |- context [String.eqb ?a ?b] => rewrite H
      end
    | match goal with
      | |- context [String.eqb ?a ?b] => destruct (String.eqb a b) eqn:?
      end
    | match goal with
      | |- context [deref ?p] => destruct p
      end
    | match goal with
      | |- context [match ?o with _ => _ end] => destruct o eqn:?
      end ].

Ltac eqb_props :=
  repeat match goal with
    | H : String.eqb ?a ?b = true |- _ =>
        apply (proj1 (String.eqb_eq a b)) in H
    | H : String.eqb ?a ?b = false |- _ =>
        apply (proj1 (String.eqb_neq a b)) in H
    end.

(** X6.  [GetCreateWorkspaceDtoFromFlags] dereferences its flags without
    a nil check: it panics exactly when the builder flag, the devcontainer
    path or the custom image is nil, or when the custom image is empty and
    the custom image user is nil.  A nil custom image user is harmless
    beside a custom image that is not empty, and nil environment or label
    flags never make it panic. *)
Theorem GetCreateWorkspaceDtoFromFlags_panics
    (DEVCONTAINER NONE DEVCONTAINER_FILEPATH : string)
    (MapKeyValue : list string → gmap string string * option error)
    (flags : WorkspaceConfigurationFlags) :
  (∃ msg, GetCreateWorkspaceDtoFromFlags DEVCONTAINER NONE
            DEVCONTAINER_FILEPATH MapKeyValue flags = Panicked msg)
  ↔ Builder flags = None
    ∨ DevcontainerPath flags = None
    ∨ CustomImage flags = None
    ∨ (CustomImage flags = Some EmptyString ∧ CustomImageUser flags = None).
Proof.
  unfold GetCreateWorkspaceDtoFromFlags.
  destruct flags as [b ci ciu dp ev lb gp]; simpl.
  run_flags; eqb_props; subst;
    (split;
     [ intros [msg Hmsg]; first [discriminate Hmsg | tauto | auto 6]
     | intros [H | [H | [H | [H1 H2]]]];
       first [ discriminate | by eexists
             | injection H1 as H1; congruence ] ]).
Qed.

(** X7.  The image and the user of the DTO [GetCreateWorkspaceDtoFromFlags]
    returns are the custom image and custom image user flags, both, as
    soon as one of the two is not empty; otherwise both are nil, also
    when the builder flag is NONE.  The git provider configuration id is
    the flag, in every case. *)
Theorem GetCreateWorkspaceDtoFromFlags_image
    (DEVCONTAINER NONE DEVCONTAINER_FILEPATH : string)
    (MapKeyValue : list string → gmap string string * option error)
    (flags : WorkspaceConfigurationFlags) (dto : CreateWorkspaceDTO) :
  GetCreateWorkspaceDtoFromFlags DEVCONTAINER NONE DEVCONTAINER_FILEPATH
    MapKeyValue flags = Returned (inl dto) →
  let custom :=
    (∃ image, CustomImage flags = Some image ∧ image ≠ EmptyString)
    ∨ (∃ user, CustomImageUser flags = Some user ∧ user ≠ EmptyString) in
  (custom → Image dto = CustomImage flags ∧ User dto = CustomImageUser flags) ∧
  (¬ custom → Image dto = None ∧ User dto = None) ∧
  GitProviderConfigId dto = GitProviderConfig flags.
Proof.
  intros Hret custom; subst custom.
  unfold GetCreateWorkspaceDtoFromFlags in Hret.
  destruct flags as [b ci ciu dp ev lb gp]; simpl in *.
  revert Hret. run_flags.
  all: intros Hd; first [discriminate Hd | injection Hd as <-]; simpl.
  all: eqb_props.
  all: split; [|split; [|reflexivity]].
  all: try (intros _; split; reflexivity).
  all: try solve
    [ intros [(x & H & Hx) | (x & H & Hx)]; injection H as H; congruence ].
  all: intros Hno; exfalso; apply Hno;
    first
      [ left; eexists; split; [reflexivity | congruence]
      | right; eexists; split; [reflexivity | congruence] ].
Qed.

Lemma GetCreateWorkspaceDtoFromFlags_image_witness :
  let flags := {|
    Builder := Some "auto"; CustomImage := Some "golang:1.22";
    CustomImageUser := None; DevcontainerPath := Some EmptyString;
    FlagEnvVars := None; FlagLabels := None;
    GitProviderConfig := Some "github-1" |} in
  ∃ dto,
    GetCreateWorkspaceDtoFromFlags "devcontainer" "none"
      ".devcontainer/devcontainer.json" (λ _, (∅, None)) flags
    = Returned (inl dto)
    ∧ Image dto = Some "golang:1.22" ∧ User dto = None
    ∧ GitProviderConfigId dto = Some "github-1".
Proof.
  intros flags. eexists. split; [reflexivity|].
  destruct (GetCreateWorkspaceDtoFromFlags_image "devcontainer" "none"
              ".devcontainer/devcontainer.json" (λ _, (∅, None)) flags _
              eq_refl) as (Hcustom & _ & Hgp).
  destruct Hcustom as [Himage Huser].
  - left. exists "golang:1.22". split; [reflexivity | discriminate].
  - split; [exact Himage|]. split; [exact Huser | exact Hgp].
Defined.

(** X8.  When [GetCreateWorkspaceDtoFromFlags] returns, the environment
    variables are parsed before the labels and the first parse error is
    the error returned, without a DTO; a flag that is nil is not parsed
    and gives the empty map.  A DTO is returned exactly when neither
    parse fails, with the two maps parsed. *)
Theorem GetCreateWorkspaceDtoFromFlags_maps
    (DEVCONTAINER NONE DEVCONTAINER_FILEPATH : string)
    (MapKeyValue : list string → gmap string string * option error)
    (flags : WorkspaceConfigurationFlags) (result : CreateWorkspaceDTO + error) :
  GetCreateWorkspaceDtoFromFlags DEVCONTAINER NONE DEVCONTAINER_FILEPATH
    MapKeyValue flags = Returned result →
  let parsed (flag : option (list string)) :=
    match flag with
    | Some l => MapKeyValue l
    | None => (∅, None)
    end in
  match (parsed (FlagEnvVars flags)).2, (parsed (FlagLabels flags)).2 with
  | Some err, _ => result = inr err
  | None, Some err => result = inr err
  | None, None =>
      ∃ dto, result = inl dto ∧
             EnvVars dto = (parsed (FlagEnvVars flags)).1 ∧
             Labels dto = (parsed (FlagLabels flags)).1
  end.
Proof.
  intros Hret parsed; subst parsed.
  unfold GetCreateWorkspaceDtoFromFlags in Hret.
  destruct flags as [b ci ciu dp ev lb gp]; simpl in *.
  destruct (match ev with Some l => MapKeyValue l | None => (∅, None) end)
    as [envVars [envErr|]] eqn:Hev;
    [|destruct (match lb with Some l => MapKeyValue l | None => (∅, None) end)
        as [labels [lbErr|]] eqn:Hlb];
    simpl in *; revert Hret; run_flags;
    intros Hd; first [discriminate Hd | injection Hd as <-];
    first [reflexivity | by eexists].
Qed.

Lemma GetCreateWorkspaceDtoFromFlags_maps_witness :
  let flags := {|
    Builder := Some "auto"; CustomImage := Some EmptyString;
    CustomImageUser := Some EmptyString; DevcontainerPath := Some EmptyString;
    FlagEnvVars := Some ["KEY"]; FlagLabels := Some ["team=web"];
    GitProviderConfig := None |} in
  let MapKeyValue (l : list string) : gmap string string * option error :=
    if decide (l = ["KEY"]) then (∅, Some "invalid key-value pair: KEY")
    else (∅, None) in
  ∃ result,
    GetCreateWorkspaceDtoFromFlags "devcontainer" "none"
      ".devcontainer/devcontainer.json" MapKeyValue flags
    = Returned result
    ∧ result = inr "invalid key-value pair: KEY".
Proof.
  intros flags MapKeyValue. eexists. split; [reflexivity|].
  exact (GetCreateWorkspaceDtoFromFlags_maps "devcontainer" "none"
           ".devcontainer/devcontainer.json" MapKeyValue flags _ eq_refl).
Defined.

End dto_from_flags_rest.

(** ** Initial workspace names *)
Section initial_names.
Import creation_data creation_data_rest.

Lemma fmt_d_not_empty (i : Z) : fmt_d i ≠ EmptyString.
Proof.
  unfold fmt_d. intros H.
  pose proof (NilEmpty.isi (Z.to_int i)) as E. rewrite H in E. simpl in E.
  injection E as E. destruct i; simpl in E; try discriminate.
  injection E as E. symmetry in E.
  by apply DecimalPos.Unsigned.to_uint_nonnil in E.
Qed.

Lemma append_empty_r (s t : string) : s +:+ t = s → t = EmptyString.
Proof.
  induction s as [|c s IH]; simpl; [done|]. intros [= H]. by apply IH.
Qed.

Lemma candidate_injective (originalName : string) :
  Inj (=) (=) (candidate originalName).
Proof.
  intros [|a] [|b] H; simpl in H.
  - done.
  - symmetry in H. apply append_empty_r in H. by apply fmt_d_not_empty in H.
  - apply append_empty_r in H. by apply fmt_d_not_empty in H.
  - apply append_inj_r, fmt_d_inj in H. f_equal. lia.
Qed.

(** The least index where a predicate fails, below an index where it
    fails. *)
Lemma least_false (p : nat → bool) (n : nat) :
  p n = false →
  ∃ k : nat, (k ≤ n)%nat ∧ p k = false ∧ ∀ j : nat, (j < k)%nat → p j = true.
Proof.
  induction n as [n IH] using lt_wf_ind. intros Hn.
  destruct (decide (Forall (λ j, p j = true) (seq 0 n))) as [Hall|Hnot].
  - exists n. split; [done|]. split; [done|].
    intros j Hj. rewrite Forall_forall in Hall. apply Hall, elem_of_seq. lia.
  - apply not_Forall_Exists in Hnot; [|intros k; apply _].
    apply Exists_exists in Hnot as (k & Hk & Hfalse).
    apply elem_of_seq in Hk. apply not_true_is_false in Hfalse.
    destruct (IH k) as (k' & Hle & Hk' & Hleast); [lia | done |].
    exists k'. split; [lia | done].
Qed.

(** Among the first names tried, one more than the map has keys, one is
    not taken; so there is a first one. *)
Lemma first_free_candidate (existingNames : gmap string bool)
    (originalName : string) :
  ∃ k : nat,
    (k ≤ size existingNames)%nat ∧
    default false (existingNames !! candidate originalName k) = false ∧
    ∀ j : nat, (j < k)%nat →
      default false (existingNames !! candidate originalName j) = true.
Proof.
  set (taken := λ k, default false (existingNames !! candidate originalName k)).
  set (keys := (map_to_list existingNames).*1).
  assert (Hkeys : ∀ k, taken k = true → candidate originalName k ∈ keys).
  { intros k Hk. unfold taken in Hk.
    destruct (existingNames !! candidate originalName k) as [b|] eqn:E;
      [|done].
    apply list_elem_of_fmap. exists (candidate originalName k, b).
    split; [done|]. by apply elem_of_map_to_list. }
  assert (Hlen : length keys = size existingNames).
  { unfold keys. by rewrite length_fmap, length_map_to_list. }
  destruct (decide (Forall (λ k, taken k = true) (seq 0 (S (length keys)))))
    as [Hall|Hnot].
  - exfalso.
    assert (Hsub : (candidate originalName <$> seq 0 (S (length keys))) ⊆+ keys).
    { apply NoDup_submseteq.
      - pose proof (candidate_injective originalName) as Hinj.
        apply (NoDup_fmap_2 (candidate originalName)), NoDup_seq.
      - intros x Hx. apply list_elem_of_fmap in Hx as (k & -> & Hk).
        rewrite Forall_forall in Hall. by apply Hkeys, Hall. }
    apply submseteq_length in Hsub.
    rewrite length_fmap, length_seq in Hsub. lia.
  - apply not_Forall_Exists in Hnot; [|intros k; apply _].
    apply Exists_exists in Hnot as (k & Hk & Hfree).
    apply elem_of_seq in Hk. apply not_true_is_false in Hfree.
    destruct (least_false taken k Hfree) as (k' & Hle & Hk' & Hleast).
    exists k'. split; [lia | done].
Qed.

(** The inner loop, entered at the name of index [k], stops at the first
    free index at or after [k]. *)
Lemma free_name_loop_first_free (existingNames : gmap string bool)
    (originalName : string) (n : nat) :
  (Z.of_nat n + 2 ≤ int_max)%Z →
  default false (existingNames !! candidate originalName n) = false →
  ∀ (fuel k : nat), (k ≤ n)%nat →
    (∀ j : nat, (k ≤ j < n)%nat →
       default false (existingNames !! candidate originalName j) = true) →
    (n - k < fuel)%nat →
    free_name_loop fuel existingNames originalName (candidate originalName k)
      (Z.of_nat k + 2)
    = Some (candidate originalName n).
Proof.
  intros Hmax Hfree fuel.
  induction fuel as [|fuel IH]; intros k Hk Htaken Hfuel; [lia|].
  simpl. destruct (decide (k = n)) as [->|Hne].
  - by rewrite Hfree.
  - rewrite Htaken by lia.
    rewrite int_wrap_id by (unfold int_min, int_max in *; lia).
    replace (Z.of_nat k + 2 + 1)%Z with (Z.of_nat (S k) + 2)%Z by lia.
    change (originalName +:+ fmt_d (Z.of_nat k + 2))
      with (candidate originalName (S k)).
    apply IH; [lia | intros j Hj; apply Htaken; lia | lia].
Qed.

Lemma free_name_loop_mono (existingNames : gmap string bool)
    (originalName : string) (fuel : nat) :
  ∀ (fuel' : nat) newName counter r, (fuel ≤ fuel')%nat →
    free_name_loop fuel existingNames originalName newName counter = Some r →
    free_name_loop fuel' existingNames originalName newName counter = Some r.
Proof.
  induction fuel as [|fuel IH]; intros fuel' newName counter r Hle H;
    [discriminate|].
  destruct fuel' as [|fuel']; [lia|]. simpl in *.
  destruct (default false _); [|done]. apply IH; [lia | done].
Qed.

Lemma set_names_mono (fuel : nat) (dtos : list NamedWorkspaceDTO) :
  ∀ (fuel' : nat) existingNames out, (fuel ≤ fuel')%nat →
    set_names fuel dtos existingNames = Some out →
    set_names fuel' dtos existingNames = Some out.
Proof.
  induction dtos as [|dto rest IH]; intros fuel' m out Hle H; simpl in *;
    [done|].
  destruct (free_name_loop fuel m _ _ _) as [newName|] eqn:Hloop;
    [|discriminate].
  rewrite (free_name_loop_mono _ _ _ fuel' _ _ _ Hle Hloop).
  destruct (set_names fuel rest _) as [rest'|] eqn:Hrest; [|discriminate].
  by rewrite (IH fuel' _ _ Hle Hrest).
Qed.

(** The second loop on any map: the names given are free in the map and
    pairwise distinct, and nothing else of a DTO changes. *)
Lemma set_names_fresh (dtos : list NamedWorkspaceDTO) :
  ∀ existingNames : gmap string bool,
    (Z.of_nat (size existingNames + length dtos) + 2 ≤ int_max)%Z →
    ∃ out,
      (∀ fuel : nat, (size existingNames + length dtos ≤ fuel)%nat →
         set_names fuel dtos existingNames = Some out) ∧
      Forall2 (λ dto dto', Id dto' = Id dto ∧ settings dto' = settings dto)
        dtos out ∧
      NoDup (Name <$> out) ∧
      Forall (λ dto', default false (existingNames !! Name dto') = false) out.
Proof.
  induction dtos as [|dto rest IH]; intros m Hmax.
  - exists []. split; [done|]. split; [constructor|].
    split; [constructor | constructor].
  - change (length (dto :: rest)) with (S (length rest)) in Hmax.
    destruct (first_free_candidate m (Name dto)) as (k & Hk & Hfree & Hleast).
    set (newName := candidate (Name dto) k) in *.
    assert (Hsize : (size (<[newName := true]> m) ≤ S (size m))%nat).
    { destruct (m !! newName) as [b|] eqn:E.
      - rewrite map_size_insert_Some by eauto. lia.
      - by rewrite map_size_insert_None. }
    destruct (IH (<[newName := true]> m)) as (out & Hrun & Hsame & Hnodup & Hout);
      [lia|].
    exists (set_Name dto newName :: out). split; [|split; [|split]].
    + intros fuel Hfuel.
      change (length (dto :: rest)) with (S (length rest)) in Hfuel. simpl.
      assert (Hloop : free_name_loop fuel m (Name dto) (Name dto) 2
                      = Some newName).
      { apply (free_name_loop_first_free m (Name dto) k) with (k := 0%nat).
        - lia.
        - done.
        - lia.
        - intros j Hj. apply Hleast. lia.
        - lia. }
      rewrite Hloop, Hrun by lia. done.
    + constructor; [done | done].
    + simpl. apply NoDup_cons. split; [|done].
      intros Hin. apply list_elem_of_fmap in Hin as (d & Hd & Hin).
      rewrite Forall_forall in Hout. specialize (Hout d Hin).
      rewrite <- Hd, lookup_insert_eq in Hout. discriminate.
    + constructor; [done|].
      apply Forall_forall. intros d Hin.
      rewrite Forall_forall in Hout. specialize (Hout d Hin).
      destruct (decide (newName = Name d)) as [Heq|Hne].
      * rewrite <- Heq, lookup_insert_eq in Hout. discriminate.
      * by rewrite lookup_insert_ne in Hout.
Qed.

(** The map of the first loop holds exactly the names of the existing
    workspaces, each with [true]. *)
Lemma existing_names_lookup (existingWorkspaces : list WorkspaceDTO)
    (name : string) :
  existing_names existingWorkspaces !! name
  = if decide (name ∈ ws_Name <$> existingWorkspaces) then Some true else None.
Proof.
  unfold existing_names.
  assert (H : ∀ acc : gmap string bool,
    fold_left (λ m w, <[ws_Name w := true]> m) existingWorkspaces acc !! name
    = if decide (name ∈ ws_Name <$> existingWorkspaces) then Some true
      else acc !! name).
  { induction existingWorkspaces as [|w rest IH]; intros acc.
    - cbn. destruct (decide _) as [H|H]; [by apply elem_of_nil in H | done].
    - cbn [fold_left]. rewrite IH, fmap_cons.
      destruct (decide (name ∈ ws_Name <$> rest)) as [Hin|Hnin],
        (decide (name ∈ ws_Name w :: (ws_Name <$> rest))) as [Hin'|Hnin'].
      + done.
      + exfalso. apply Hnin'. by right.
      + apply elem_of_cons in Hin' as [->|?]; [|done].
        apply lookup_insert_eq.
      + rewrite lookup_insert_ne; [done|]. intros <-. apply Hnin'. by left. }
  rewrite H. by rewrite lookup_empty.
Qed.

Lemma existing_names_size (existingWorkspaces : list WorkspaceDTO) :
  (size (existing_names existingWorkspaces) ≤ length existingWorkspaces)%nat.
Proof.
  unfold existing_names.
  assert (H : ∀ acc : gmap string bool,
    (size (fold_left (λ m w, <[ws_Name w := true]> m) existingWorkspaces acc)
     ≤ size acc + length existingWorkspaces)%nat).
  { induction existingWorkspaces as [|w rest IH]; intros acc; simpl; [lia|].
    etrans; [apply IH|].
    destruct (acc !! ws_Name w) as [b|] eqn:E.
    - rewrite map_size_insert_Some by eauto. lia.
    - rewrite map_size_insert_None by done. lia. }
  etrans; [apply H|]. by rewrite map_size_empty.
Qed.

(** X9.  [setInitialWorkspaceNames] terminates (with fuel for one
    iteration per workspace, existing or new, it returns, and whatever
    fuel makes it return, it returns the same) and makes the names
    unique: the names of the DTOs it leaves are pairwise distinct and none
    is the name of an existing workspace.  It changes nothing but names:
    the DTOs keep their number, order, ids and settings. *)
Theorem setInitialWorkspaceNames_unique
    (createWorkspaceDtos : list NamedWorkspaceDTO)
    (existingWorkspaces : list WorkspaceDTO) :
  (Z.of_nat (length existingWorkspaces + length createWorkspaceDtos) + 2
   ≤ int_max)%Z →
  ∃ out,
    (∀ fuel : nat,
       (length existingWorkspaces + length createWorkspaceDtos ≤ fuel)%nat →
       setInitialWorkspaceNames fuel createWorkspaceDtos existingWorkspaces
       = Some out) ∧
    (∀ (fuel : nat) out',
       setInitialWorkspaceNames fuel createWorkspaceDtos existingWorkspaces
       = Some out' → out' = out) ∧
    Forall2 (λ dto dto', Id dto' = Id dto ∧ settings dto' = settings dto)
      createWorkspaceDtos out ∧
    NoDup (Name <$> out) ∧
    (∀ dto' workspace,
       dto' ∈ out → workspace ∈ existingWorkspaces →
       Name dto' ≠ ws_Name workspace).
Proof.
  intros Hmax. unfold setInitialWorkspaceNames.
  pose proof (existing_names_size existingWorkspaces) as Hsize.
  destruct (set_names_fresh createWorkspaceDtos (existing_names existingWorkspaces))
    as (out & Hrun & Hsame & Hnodup & Hfree); [lia|].
  exists out. split; [|split; [|split; [|split]]]; try done.
  - intros fuel Hfuel. apply Hrun. lia.
  - intros fuel out' H.
    apply (set_names_mono _ _
             (fuel + (length existingWorkspaces + length createWorkspaceDtos)))
      in H; [|lia].
    rewrite Hrun in H by lia. by injection H.
  - intros dto' workspace Hin Hws Heq.
    rewrite Forall_forall in Hfree. specialize (Hfree dto' Hin).
    rewrite existing_names_lookup in Hfree.
    case_decide as Hnot; [discriminate|]. apply Hnot.
    rewrite Heq. by apply list_elem_of_fmap_2.
Qed.

(** The theorem on two new workspaces named like an existing one: they
    become [api2] and [api3]. *)
Lemma setInitialWorkspaceNames_unique_witness :
  let dtos := [samples_rest.dto "1" "api"; samples_rest.dto "2" "api"] in
  let existing := [{| ws_Name := "api" |}] in
  (Z.of_nat (length existing + length dtos) + 2 ≤ int_max)%Z ∧
  ∃ out,
    setInitialWorkspaceNames 3 dtos existing = Some out ∧
    Name <$> out = ["api2"; "api3"] ∧
    NoDup (Name <$> out).
Proof.
  intros dtos existing.
  assert (H : (Z.of_nat (length existing + length dtos) + 2 ≤ int_max)%Z)
    by (vm_compute; discriminate).
  split; [exact H|].
  destruct (setInitialWorkspaceNames_unique dtos existing H)
    as (out & Hrun & _ & _ & Hnodup & _).
  exists out. split; [apply Hrun; simpl; lia|]. split; [|exact Hnodup].
  specialize (Hrun 3%nat). simpl in Hrun.
  assert (Hout : Some out
                 = Some [samples_rest.dto "1" "api2"; samples_rest.dto "2" "api3"])
    by (rewrite <- Hrun by lia; reflexivity).
  injection Hout as ->. reflexivity.
Defined.

(** X10.  [setInitialWorkspaceNames] leaves names that need no change:
    when the names of the DTOs are pairwise distinct and none is the name
    of an existing workspace, the DTOs come back as they were, after one
    test of the inner loop each. *)
Theorem setInitialWorkspaceNames_unchanged
    (createWorkspaceDtos : list NamedWorkspaceDTO)
    (existingWorkspaces : list WorkspaceDTO) (fuel : nat) :
  NoDup (Name <$> createWorkspaceDtos) →
  (∀ dto workspace,
     dto ∈ createWorkspaceDtos → workspace ∈ existingWorkspaces →
     Name dto ≠ ws_Name workspace) →
  setInitialWorkspaceNames (S fuel) createWorkspaceDtos existingWorkspaces
  = Some createWorkspaceDtos.
Proof.
  intros Hnodup Hfree. unfold setInitialWorkspaceNames.
  assert (Hmap : Forall (λ dto, default false
                                  (existing_names existingWorkspaces !! Name dto)
                                = false) createWorkspaceDtos).
  { apply Forall_forall. intros dto Hin. rewrite existing_names_lookup.
    case_decide as Hex; [|done].
    apply list_elem_of_fmap in Hex as (workspace & Heq & Hws).
    by destruct (Hfree dto workspace Hin Hws). }
  clear Hfree. revert Hnodup Hmap.
  generalize (existing_names existingWorkspaces) as m.
  induction createWorkspaceDtos as [|dto rest IH]; intros m Hnodup Hmap;
    [done|].
  rewrite fmap_cons in Hnodup. apply NoDup_cons in Hnodup as [Hnotin Hnodup].
  apply Forall_cons in Hmap as [Hdto Hrest].
  cbn [set_names free_name_loop]. rewrite Hdto.
  rewrite IH; [by destruct dto | done |].
  apply Forall_forall. intros d Hin.
  rewrite Forall_forall in Hrest. specialize (Hrest d Hin).
  rewrite lookup_insert_ne; [done|].
  intros Heq. apply Hnotin. rewrite Heq. by apply list_elem_of_fmap_2.
Qed.

Lemma setInitialWorkspaceNames_unchanged_witness :
  setInitialWorkspaceNames 1
    [samples_rest.dto "1" "api"; samples_rest.dto "2" "web"]
    [{| ws_Name := "docs" |}]
  = Some [samples_rest.dto "1" "api"; samples_rest.dto "2" "web"].
Proof.
  apply (setInitialWorkspaceNames_unchanged
           [samples_rest.dto "1" "api"; samples_rest.dto "2" "web"]
           [{| ws_Name := "docs" |}] 0).
  - apply NoDup_cons. split; [|apply NoDup_singleton].
    intros H. apply list_elem_of_singleton in H. discriminate.
  - intros dto workspace Hdto Hws.
    apply list_elem_of_singleton in Hws as ->.
    apply elem_of_cons in Hdto as [->|Hdto]; [discriminate|].
    apply list_elem_of_singleton in Hdto as ->. discriminate.
Defined.

(** The inner loop on the map and the loop of [GetSuggestedName] on a
    list with the same names run in step. *)
Lemma free_name_loop_suggestion_loop (existingNames : gmap string bool)
    (names : list string) (originalName : string) :
  (∀ name, default false (existingNames !! name) = slices_Contains names name) →
  ∀ (fuel : nat) (i : Z),
    free_name_loop fuel existingNames originalName
      (originalName +:+ fmt_d i) (int_wrap (i + 1))
    = suggestion_loop fuel originalName names i.
Proof.
  intros Hsame fuel. induction fuel as [|fuel IH]; intros i; [done|].
  cbn [free_name_loop suggestion_loop]. rewrite Hsame.
  destruct (slices_Contains names _); [apply IH | done].
Qed.

(** X11.  For one new workspace [setInitialWorkspaceNames] and
    [GetSuggestedName] choose the same name: the DTO is renamed to what
    [GetSuggestedName] suggests for its name among the names of the
    existing workspaces, the map of the one and the list of the other
    being searched alike. *)
Theorem setInitialWorkspaceNames_GetSuggestedName
    (dto : NamedWorkspaceDTO) (existingWorkspaces : list WorkspaceDTO)
    (fuel : nat) :
  setInitialWorkspaceNames (S fuel) [dto] existingWorkspaces
  = option_map (λ name, [set_Name dto name])
      (GetSuggestedName fuel (Name dto) (ws_Name <$> existingWorkspaces)).
Proof.
  assert (Hsame : ∀ name,
            default false (existing_names existingWorkspaces !! name)
            = slices_Contains (ws_Name <$> existingWorkspaces) name).
  { intros name. rewrite existing_names_lookup.
    destruct (slices_Contains _ name) eqn:Hc.
    - apply slices_Contains_elem_of in Hc. by rewrite decide_True.
    - apply slices_Contains_false in Hc. by rewrite decide_False. }
  unfold setInitialWorkspaceNames, GetSuggestedName.
  cbn [set_names free_name_loop]. rewrite Hsame.
  destruct (slices_Contains _ (Name dto)); [|done]. cbn [negb].
  rewrite (free_name_loop_suggestion_loop _ (ws_Name <$> existingWorkspaces)
             (Name dto) Hsame fuel 2).
  by destruct (suggestion_loop fuel _ _ 2).
Qed.

End initial_names.

(** ** More on name suggestion *)
Section suggested_name_rest.
Import creation_data.

(** X12.  [GetSuggestedName] depends on the existing names as a set
    only: two lists with the same members, in any order and with any
    repetitions, give the same suggestion with the same fuel. *)
Theorem GetSuggestedName_same_members (fuel : nat) (initialSuggestion : string)
    (existingNames existingNames' : list string) :
  (∀ name, name ∈ existingNames ↔ name ∈ existingNames') →
  GetSuggestedName fuel initialSuggestion existingNames
  = GetSuggestedName fuel initialSuggestion existingNames'.
Proof.
  intros Hsame.
  assert (Hc : ∀ name, slices_Contains existingNames name
                       = slices_Contains existingNames' name).
  { intros name. destruct (slices_Contains existingNames' name) eqn:E.
    - apply slices_Contains_elem_of, Hsame. by apply slices_Contains_elem_of.
    - apply slices_Contains_false. rewrite Hsame.
      by apply slices_Contains_false. }
  unfold GetSuggestedName. rewrite Hc.
  destruct (negb _); [done|].
  generalize 2%Z as i. induction fuel as [|fuel IH]; intros i; simpl; [done|].
  rewrite Hc. destruct (negb _); [done | apply IH].
Qed.

Lemma GetSuggestedName_same_members_witness :
  GetSuggestedName 3 "api" ["api2"; "api"; "api2"]
  = GetSuggestedName 3 "api" ["api"; "api2"].
Proof.
  apply GetSuggestedName_same_members. intros name. split; intros H.
  - repeat (apply elem_of_cons in H as [->|H];
            [by repeat constructor|]). by apply elem_of_nil in H.
  - repeat (apply elem_of_cons in H as [->|H];
            [by repeat constructor|]). by apply elem_of_nil in H.
Defined.

End suggested_name_rest.

(** ** More on the database connection *)
Section sqlite_connection_rest.
Import db.

(** X13.  Whatever the state of the process and the paths asked for, a
    run of calls to [GetSQLiteConnection] hands out one handle only: all
    the handles returned are the same, it is the one cached at the end,
    and a handle cached before the run is the one returned throughout,
    the process left as it was. *)
Theorem calls_one_handle (drv : Driver) (paths : list string)
    (p p' : Process) (handles : list nat) :
  calls drv paths p = (handles, p') →
  (∀ h h', h ∈ handles → h' ∈ handles → h = h') ∧
  (∀ h, h ∈ handles → _db p' = Some h) ∧
  (∀ h, _db p = Some h →
     handles = replicate (length paths) h ∧ p' = p).
Proof.
  intros Hcalls.
  assert (Hcached : ∀ h, _db p = Some h →
            handles = replicate (length paths) h ∧ p' = p).
  { intros h Hdb. rewrite (calls_cached drv p h Hdb) in Hcalls.
    by injection Hcalls as <- <-. }
  assert (Hall : ∃ h, Forall (λ x, x = h) handles ∧
                      (handles ≠ [] → _db p' = Some h)).
  { destruct (_db p) as [h|] eqn:Hdb.
    - destruct (Hcached h eq_refl) as [-> ->]. exists h.
      split; [apply Forall_replicate; done | done].
    - destruct paths as [|dbPath rest]; simpl in Hcalls.
      + injection Hcalls as <- <-. exists 0%nat. by split.
      + destruct (GetSQLiteConnection drv dbPath p) as [[h|msg] p1] eqn:Hfirst.
        * assert (Hp1 : _db p1 = Some h).
          { unfold GetSQLiteConnection in Hfirst. rewrite Hdb in Hfirst.
            destruct (gorm_Open_fails drv dbPath); [discriminate|].
            destruct (DB_fails drv dbPath); [discriminate|].
            by injection Hfirst as <- <-. }
          rewrite (calls_cached drv p1 h Hp1) in Hcalls.
          injection Hcalls as <- <-. exists h. split; [|done].
          constructor; [done | by apply Forall_replicate].
        * injection Hcalls as <- <-. exists 0%nat. by split. }
  destruct Hall as (h0 & Hforall & Hlast).
  rewrite Forall_forall in Hforall.
  split; [|split; [|done]].
  - intros h h' Hh Hh'. by rewrite (Hforall h Hh), (Hforall h' Hh').
  - intros h Hh. rewrite (Hforall h Hh). apply Hlast.
    intros ->. by apply elem_of_nil in Hh.
Qed.

Lemma calls_one_handle_witness :
  let drv := {| gorm_Open_fails := λ _, false; DB_fails := λ _, false |} in
  let p := {| _db := None; heap := []; debug_log := [] |} in
  ∃ p', calls drv ["/data/a.db"; "/data/b.db"; "/data/c.db"] p
        = ([0; 0; 0]%nat, p')
        ∧ _db p' = Some 0%nat.
Proof.
  intros drv p. eexists. split; [reflexivity|].
  apply (calls_one_handle drv ["/data/a.db"; "/data/b.db"; "/data/c.db"] p _
           [0; 0; 0]%nat eq_refl).
  by left.
Defined.

(** X14.  A failure is not memoized.  A call to [GetSQLiteConnection]
    that panics found nothing cached, failed in [gorm.Open] or in [DB],
    and leaves nothing cached; so a later call with a path that opens
    does open that path and returns its handle: the handle of the process
    is that of the first path that opens, not of the first path asked. *)
Theorem GetSQLiteConnection_panic_not_cached (drv : Driver)
    (dbPath msg : string) (p p' : Process) :
  GetSQLiteConnection drv dbPath p = (Panicked msg, p') →
  msg = "failed to connect database" ∧
  _db p = None ∧ _db p' = None ∧
  (gorm_Open_fails drv dbPath = true ∨ DB_fails drv dbPath = true) ∧
  ∀ dbPath', gorm_Open_fails drv dbPath' = false →
             DB_fails drv dbPath' = false →
    ∃ h p'',
      GetSQLiteConnection drv dbPath' p' = (Returned h, p'') ∧
      heap p'' !! h = Some {| dsn := dbPath'; MaxOpenConns := 1 |} ∧
      _db p'' = Some h.
Proof.
  unfold GetSQLiteConnection. intros Hcall.
  destruct (_db p) as [h|] eqn:Hdb; [discriminate|].
  destruct (gorm_Open_fails drv dbPath) eqn:Hopen.
  - injection Hcall as <- <-. simpl.
    split; [done|]. split; [done|]. split; [done|]. split; [by left|].
    intros dbPath' -> ->. eexists _, _. split; [reflexivity|]. simpl.
    split; [apply SetMaxOpenConns_new | done].
  - destruct (DB_fails drv dbPath) eqn:Hdbf; [|discriminate].
    injection Hcall as <- <-. simpl.
    split; [done|]. split; [done|]. split; [done|]. split; [by right|].
    intros dbPath' -> ->. eexists _, _. split; [reflexivity|]. simpl.
    split; [|done].
    apply (SetMaxOpenConns_new
             (heap p ++ [{| dsn := dbPath; MaxOpenConns := 0 |}])).
Qed.

Lemma GetSQLiteConnection_panic_not_cached_witness :
  let drv := {| gorm_Open_fails := λ path, String.eqb path "/ro/a.db";
                DB_fails := λ _, false |} in
  let p := {| _db := None; heap := []; debug_log := [] |} in
  ∃ p' h p'',
    GetSQLiteConnection drv "/ro/a.db" p
    = (Panicked "failed to connect database", p') ∧
    GetSQLiteConnection drv "/data/b.db" p' = (Returned h, p'') ∧
    heap p'' !! h = Some {| dsn := "/data/b.db"; MaxOpenConns := 1 |}.
Proof.
  intros drv p. eexists.
  destruct (GetSQLiteConnection_panic_not_cached drv "/ro/a.db"
              "failed to connect database" p _ eq_refl)
    as (_ & _ & _ & _ & Hlater).
  destruct (Hlater "/data/b.db" eq_refl eq_refl) as (h & p'' & Hcall & Hheap & _).
  exists h, p''. split; [reflexivity|]. split; [exact Hcall | exact Hheap].
Defined.

End sqlite_connection_rest.

(** ** More on the UID/GID script *)
Section script_rest.
Import docker.










End script_rest.

(** ** The clone in its disposable container *)
Section clone_repository.
Import docker docker_rest.

(** What [updateContainerUserUidGid] answers does not depend on the
    world it runs in. *)
Lemma updateContainerUserUidGid_answer (d : Deps) (id : string)
    (opts : CreateWorkspaceOptions) (w w0 : World) :
  (updateContainerUserUidGid d id opts w).1
  = (updateContainerUserUidGid d id opts w0).1.
Proof.
  unfold updateContainerUserUidGid.
  destruct (user_Current d) as [[cu cg] [err|]]; [done|].
  destruct (match opt_SshClient opts with
            | Some sshClient => ssh_GetUserUidGid sshClient
            | None => (cu, cg, None)
            end) as [[newUid newGid] [err|]]; [done|].
  destruct (negb _); [|done].
  unfold ExecSync.
  destruct (ExecSync_err d "root" sh_c_UPDATE_UID_GID_SCRIPT); [done|].
  simpl. by do 2 destruct (UPDATE_UID_GID_SCRIPT _ _ _ _).
Qed.


(** The only call it makes is the [ExecSync] of the script, as root, at
    most once. *)
Lemma events_updateContainerUserUidGid (d : Deps) (id : string)
    (opts : CreateWorkspaceOptions) (w : World) :
  ∃ pre,
    events (updateContainerUserUidGid d id opts w).2 = (events w ++ pre)%list ∧
    (pre = [] ∨ ∃ env, pre = [ev_ExecSync id "root" sh_c_UPDATE_UID_GID_SCRIPT env]).
Proof.
  unfold updateContainerUserUidGid.
  destruct (user_Current d) as [[cu cg] [e|]].
  { exists []. by rewrite app_nil_r; split; [|left]. }
  destruct (match opt_SshClient opts with
            | Some sshClient => ssh_GetUserUidGid sshClient
            | None => (cu, cg, None)
            end) as [[newUid newGid] [e|]].
  { exists []. by rewrite app_nil_r; split; [|left]. }
  destruct (negb _).
  2: { exists []. by rewrite app_nil_r; split; [|left]. }
  eexists [ev_ExecSync id "root" sh_c_UPDATE_UID_GID_SCRIPT _].
  split; [|right; by eexists].
  unfold ExecSync.
  destruct (ExecSync_err d "root" sh_c_UPDATE_UID_GID_SCRIPT); [done|].
  simpl. by destruct (UPDATE_UID_GID_SCRIPT _ _ _ _).
Qed.

(** The run of [cloneWorkspaceRepository] once the directory is made and
    the container created: the calls it makes, and what it returns. *)
Lemma cloneWorkspaceRepository_created (d : Deps)
    (opts : CreateWorkspaceOptions) (w : World) (c_ID : string) :
  mkdir_err d opts = None →
  ContainerCreate d (opt_BuilderImage opts) (clone_container_name opts)
  = (c_ID, None) →
  ∃ mid,
    events (cloneWorkspaceRepository d opts w).2
    = (events w
       ++ [mkdir_event opts;
           ev_ContainerCreate (opt_BuilderImage opts)
             (clone_container_name opts)
             (filepath_Dir d (opt_WorkspaceDir opts));
           ev_ContainerStart c_ID]
       ++ mid ++ [ev_RemoveContainer c_ID])%list ∧
    match ContainerStart d c_ID with
    | Some err => mid = [] ∧ (cloneWorkspaceRepository d opts w).1 = Some err
    | None =>
        ∃ pre,
          mid = (pre ++ [ev_ExecSync c_ID (clone_user d opts c_ID w)
                           (argv (clone_args d opts)) []])%list ∧
          (pre = []
           ∨ GOOS d ≠ "windows"
             ∧ ∃ env, pre = [ev_ExecSync c_ID "root"
                               sh_c_UPDATE_UID_GID_SCRIPT env]) ∧
          (cloneWorkspaceRepository d opts w).1
          = clone_result d opts (clone_user d opts c_ID w)
    end.
Proof.
  intros Hmk Hcreate.
  unfold cloneWorkspaceRepository.
  set (mk := match opt_SshClient opts with
             | Some sshClient => _
             | None => _
             end).
  assert (Hmk' : mk = (mkdir_err d opts, emit (mkdir_event opts) w)).
  { subst mk. unfold mkdir_err, mkdir_event. by destruct (opt_SshClient opts). }
  rewrite Hmk', Hmk. clear mk Hmk'.
  unfold clone_container_name in Hcreate. rewrite Hcreate.
  fold (clone_container_name opts).
  cbv zeta.
  fold (clone_args d opts).
  destruct (ContainerStart d c_ID) as [err|].
  { exists []. simpl. rewrite <- !app_assoc. done. }
  unfold clone_user.
  set (w2 := emit (ev_ContainerStart c_ID) _).
  assert (Hw2 : events w2
                = (events w
                   ++ [mkdir_event opts;
                       ev_ContainerCreate (opt_BuilderImage opts)
                         (clone_container_name opts)
                         (filepath_Dir d (opt_WorkspaceDir opts));
                       ev_ContainerStart c_ID])%list).
  { subst w2. simpl. by rewrite <- !app_assoc. }
  assert (Htail : ∀ u w0,
    let r :=
      match ExecSync d c_ID u (argv (clone_args d opts)) [] w0 with
      | (res_ExitCode, Some err0, w1) => (Some err0, w1)
      | (res_ExitCode, None, w1) =>
          if negb (res_ExitCode =? 0)%Z
          then (Some ("git clone failed with exit code "
                        +:+ creation_data.fmt_d res_ExitCode), w1)
          else (None, w1)
      end in
    r.1 = clone_result d opts u ∧
    events r.2
    = (events w0 ++ [ev_ExecSync c_ID u (argv (clone_args d opts)) []])%list).
  { intros u w0. unfold ExecSync, clone_result.
    destruct (ExecSync_err d u (argv (clone_args d opts))); [done|].
    by destruct (negb _). }
  destruct (negb (String.eqb (GOOS d) "windows")) eqn:Hos.
  - destruct (events_updateContainerUserUidGid d c_ID opts w2)
      as (pre & Hev & Hpre).
    rewrite (updateContainerUserUidGid_answer d c_ID opts w w2).
    destruct (updateContainerUserUidGid d c_ID opts w2) as [[u uerr] w3].
    simpl in Hev |- *.
    specialize (Htail u w3).
    destruct (match ExecSync d c_ID u (argv (clone_args d opts)) [] w3 with
              | (res_ExitCode, Some err0, w1) => _
              | (res_ExitCode, None, w1) => _
              end) as [result w4].
    simpl in Htail |- *. destruct Htail as [Hres Hev4].
    exists (pre ++ [ev_ExecSync c_ID u (argv (clone_args d opts)) []])%list.
    split.
    { rewrite Hev4, Hev. by rewrite <- !app_assoc. }
    exists pre. split; [done|]. split; [|done].
    destruct Hpre as [-> | Henv]; [by left | right].
    split; [|done]. intros Hwin. by rewrite Hwin in Hos.
  - specialize (Htail "daytona" w2).
    destruct (match ExecSync d c_ID "daytona" (argv (clone_args d opts)) [] w2 with
              | (res_ExitCode, Some err0, w1) => _
              | (res_ExitCode, None, w1) => _
              end) as [result w4].
    simpl in Htail |- *. destruct Htail as [Hres Hev4].
    exists [ev_ExecSync c_ID "daytona" (argv (clone_args d opts)) []].
    split.
    { rewrite Hev4. simpl. by rewrite <- !app_assoc. }
    exists []. by split; [|split; [left|]].
Qed.


(** X18.  The disposable container is always removed, and last.
    Whatever the start, the reconciliation of the ids and the clone
    answer, a run of [cloneWorkspaceRepository] that has created its
    container ends with the removal of that container and removes nothing
    before; a run that has created none (the directory could not be made,
    or the creation failed) removes, starts and executes nothing. *)
Theorem cloneWorkspaceRepository_removes_container (d : Deps)
    (opts : CreateWorkspaceOptions) (w : World) :
  ∃ run,
    events (cloneWorkspaceRepository d opts w).2 = (events w ++ run)%list ∧
    match mkdir_err d opts,
          ContainerCreate d (opt_BuilderImage opts) (clone_container_name opts)
    with
    | None, (c_ID, None) =>
        ∃ pre,
          run = (pre ++ [ev_RemoveContainer c_ID])%list ∧
          Forall (λ e, ∀ id, e ≠ ev_RemoveContainer id) pre
    | _, _ =>
        Forall (λ e, (∀ id, e ≠ ev_RemoveContainer id) ∧
                     (∀ id, e ≠ ev_ContainerStart id) ∧
                     (∀ id user cmd env, e ≠ ev_ExecSync id user cmd env))
          run
    end.
Proof.
  assert (Hmkev : (∀ id, mkdir_event opts ≠ ev_RemoveContainer id) ∧
                  (∀ id, mkdir_event opts ≠ ev_ContainerStart id) ∧
                  (∀ id user cmd env,
                     mkdir_event opts ≠ ev_ExecSync id user cmd env)).
  { unfold mkdir_event. by destruct (opt_SshClient opts). }
  destruct (mkdir_err d opts) as [err|] eqn:Hmk.
  { exists [mkdir_event opts]. split.
    - unfold cloneWorkspaceRepository. unfold mkdir_err, mkdir_event in *.
      destruct (opt_SshClient opts); by rewrite Hmk.
    - apply Forall_cons; split; [done | by apply Forall_nil]. }
  destruct (ContainerCreate d (opt_BuilderImage opts) (clone_container_name opts))
    as [c_ID [err|]] eqn:Hcreate.
  { exists [mkdir_event opts;
            ev_ContainerCreate (opt_BuilderImage opts)
              (clone_container_name opts)
              (filepath_Dir d (opt_WorkspaceDir opts))].
    split.
    - unfold cloneWorkspaceRepository.
      unfold mkdir_err, mkdir_event, clone_container_name in *.
      destruct (opt_SshClient opts); rewrite Hmk, Hcreate; simpl;
        by rewrite <- app_assoc.
    - apply Forall_cons; split; [done|].
      apply Forall_cons; split; [done | by apply Forall_nil]. }
  destruct (cloneWorkspaceRepository_created d opts w c_ID Hmk Hcreate)
    as (mid & Hev & Hres).
  exists (([mkdir_event opts;
            ev_ContainerCreate (opt_BuilderImage opts)
              (clone_container_name opts)
              (filepath_Dir d (opt_WorkspaceDir opts));
            ev_ContainerStart c_ID] ++ mid)
          ++ [ev_RemoveContainer c_ID])%list.
  split; [by rewrite Hev, <- !app_assoc|].
  exists ([mkdir_event opts;
           ev_ContainerCreate (opt_BuilderImage opts)
             (clone_container_name opts)
             (filepath_Dir d (opt_WorkspaceDir opts));
           ev_ContainerStart c_ID] ++ mid)%list.
  split; [reflexivity|].
  apply Forall_app. split.
  { apply Forall_cons; split; [apply Hmkev|].
    apply Forall_cons; split; [done|].
    apply Forall_cons; split; [done | by apply Forall_nil]. }
  destruct (ContainerStart d c_ID) as [err|].
  { destruct Hres as [-> _]. by apply Forall_nil. }
  destruct Hres as (pre & -> & Hpre & _).
  apply Forall_app. split.
  - destruct Hpre as [-> | (_ & env & ->)]; [by apply Forall_nil|].
    apply Forall_cons; split; [done | by apply Forall_nil].
  - apply Forall_cons; split; [done | by apply Forall_nil].
Qed.






End clone_repository.
